(** * IoTdrive: the event-segmentation and KPI engine of [app.py]

    A shallow embedding of the data-processing core of the dashboard script
    [src/app.py] (classification of samples, run segmentation, event
    aggregation, headline KPIs, window filter and hourly rollup), followed
    by the properties of that code.

    Conventions of the embedding.
    - A pandas [Timestamp] is its integer count of nanoseconds since the
      epoch ([Z]); a [datetime.date] is a day number ([Z]).
    - The real-valued columns ([speed], [quantity]) and every value derived
      from them by arithmetic are exact rationals ([Q]); the error of binary
      floating-point arithmetic is not modelled, with one exception: where
      the code rounds to decimal places, a value that lies exactly between
      two candidates goes to the one the binary float is nearer to, which
      the embedding takes from outside ([Ties]).  Equality of such values
      is [Qeq] ([==]).
    - What the script's behaviour depends on besides the rows is the dtype
      of two columns ([Dtypes]): whether the timestamps carry a time zone,
      and whether the quantities are 64-bit integers (whose subtraction
      wraps around) or floats.
    - A data frame is the list of its rows in frame order; a derived column
      that depends on one row only is a function of the row, a column that
      depends on the whole frame ([idle_group], [low_speed_group]) is a list
      of the frame's length.
    - An expression that can raise, or produce NaN or an infinity, returns
      an [outcome]. *)

From Stdlib Require Import ZArith QArith Qround Qminmax List Bool Lia Permutation.
From Stdlib Require String.
From Stdlib Require Import Lqa.
Import ListNotations.

Local Open Scope Z_scope.

(** ** Outcomes of fallible expressions *)

Inductive outcome (A : Type) : Type :=
| Value (a : A)
| IndexError      (* positional access outside a series *)
| NonFinite       (* NaN or an infinity *)
| TypeError.      (* a comparison between values of unlike types *)

Arguments Value {A} a.
Arguments IndexError {A}.
Arguments NonFinite {A}.
Arguments TypeError {A}.

Definition bind {A B : Type} (m : outcome A) (k : A -> outcome B) : outcome B :=
  match m with
  | Value a => k a
  | IndexError => IndexError
  | NonFinite => NonFinite
  | TypeError => TypeError
  end.

Notation "x <- m ;; k" := (bind m (fun x => k))
  (at level 61, m at next level, right associativity).

(** ** Numbers *)

Definition Qlt_bool (a b : Q) : bool := negb (Qle_bool b a).

(** Truthiness of a Python number: every value but zero. *)
Definition truthy (x : Q) : bool := negb (Qeq_bool x 0%Q).

(** [a / b] on floats; a zero divisor gives no finite value. *)
Definition fdiv (a b : Q) : outcome Q :=
  if Qeq_bool b 0%Q then NonFinite else Value (a / b)%Q.

(** *** Rounding to decimal places

    Python's [round(x, n)] and numpy's [.round(n)] give the multiple of
    10^-n nearest to the float [x].  Where the decimal value of [x] lies
    exactly between two multiples, the float itself lies slightly to one
    side (0.575 is stored below 0.575, 0.00005 = 0.003/60 is computed above
    it), and the two routines need not agree (Python rounds the stored
    value, numpy rounds the product with 10^n).  Which way such a tie goes
    is therefore taken from outside, for each routine, as a function of the
    value and the number of places. *)

Class Ties : Type := {
  round_tie_up : Q -> nat -> bool;       (* Python's round *)
  np_round_tie_up : Q -> nat -> bool     (* numpy's and pandas' .round *)
}.

(** The integer nearest to [x]; [up] settles an exact tie. *)
Definition rint (up : bool) (x : Q) : Z :=
  let f := Qfloor x in
  match Qcompare (x - inject_Z f)%Q (1 # 2)%Q with
  | Lt => f
  | Gt => f + 1
  | Eq => if up then f + 1 else f
  end.

Definition pow10 (ndigits : nat) : Q := inject_Z (10 ^ Z.of_nat ndigits).

Definition round_with (tie_up : Q -> nat -> bool) (x : Q) (ndigits : nat) : Q :=
  (inject_Z (rint (tie_up (Qred x) ndigits) (x * pow10 ndigits))
   / pow10 ndigits)%Q.

(* round(x, ndigits) *)
Definition round `{ti : Ties} (x : Q) (ndigits : nat) : Q :=
  round_with round_tie_up x ndigits.

(* frame.round(ndigits), series.round(ndigits) *)
Definition np_round `{ti : Ties} (x : Q) (ndigits : nat) : Q :=
  round_with np_round_tie_up x ndigits.

(** Ties as a decimal reader expects them: to the even neighbour. *)
Definition ties_to_even : Ties := {|
  round_tie_up := fun x n => Z.odd (Qfloor (x * pow10 n));
  np_round_tie_up := fun x n => Z.odd (Qfloor (x * pow10 n))
|}.

(** *** Column dtypes *)

Class Dtypes : Type := {
  (* the timestamp column is datetime64[ns, tz] rather than datetime64[ns] *)
  tz_aware : bool;
  (* the quantity column is int64 rather than float64 *)
  quantity_int64 : bool
}.

Definition naive_floats : Dtypes := {| tz_aware := false; quantity_int64 := false |}.
Definition naive_ints : Dtypes := {| tz_aware := false; quantity_int64 := true |}.

(** Subtraction of two int64 values wraps around at 64 bits. *)
Definition int64_wrap (z : Z) : Z := (z + 2 ^ 63) mod 2 ^ 64 - 2 ^ 63.

(** [b - a] on two values of the quantity column. *)
Definition quantity_sub `{dt : Dtypes} (b a : Q) : Q :=
  if quantity_int64 then inject_Z (int64_wrap (Qfloor b - Qfloor a))
  else (b - a)%Q.

Fixpoint Qsum (xs : list Q) : Q :=
  match xs with
  | [] => 0%Q
  | x :: xs' => (x + Qsum xs')%Q
  end.

(** [Series.mean()]: NaN on an empty series. *)
Definition mean (xs : list Q) : outcome Q :=
  match xs with
  | [] => NonFinite
  | _ :: _ => Value (Qsum xs / inject_Z (Z.of_nat (length xs)))%Q
  end.

(** [Series.iloc[0]] and [Series.iloc[-1]]. *)
Definition iloc_first {A : Type} (xs : list A) : outcome A :=
  match xs with
  | [] => IndexError
  | x :: _ => Value x
  end.

Fixpoint iloc_last {A : Type} (xs : list A) : outcome A :=
  match xs with
  | [] => IndexError
  | [x] => Value x
  | _ :: xs' => iloc_last xs'
  end.

(** ** Timestamps *)

Definition ns_per_second : Z := 1000000000.
Definition ns_per_hour : Z := 3600 * ns_per_second.
Definition ns_per_day : Z := 86400 * ns_per_second.

(** [Timedelta.total_seconds()] *)
Definition total_seconds (td : Z) : Q :=
  (inject_Z td / inject_Z ns_per_second)%Q.

(** [(b - a).total_seconds() / 60] *)
Definition elapsed_minutes (a b : Z) : Q := (total_seconds (b - a) / 60)%Q.

(** [.dt.date] and [.dt.hour] *)
Definition dt_date (ts : Z) : Z := ts / ns_per_day.
Definition dt_hour (ts : Z) : Z := (ts mod ns_per_day) / ns_per_hour.

(** [datetime.combine(d, time(h, m, s))] *)
Definition combine_datetime (d h m s : Z) : Z :=
  d * ns_per_day + (h * 3600 + m * 60 + s) * ns_per_second.

(** ** Samples and their classification (app.py, lines 95-106) *)

Record Row : Type := mkRow {
  timestamp : Z;
  speed : Q;
  quantity : Q
}.

Definition DataFrame : Type := list Row.

Section Classifier.

Variable mc_min_speed_req : Q.

(* df['idle'] = df['speed'] <= 1 *)
Definition idle (r : Row) : bool := Qle_bool (speed r) 1%Q.

(* df['is_running'] = df['speed'] > 1 *)
Definition is_running (r : Row) : bool := Qlt_bool 1%Q (speed r).

(* df['is_low_speed'] = (df['speed'] < mc_min_speed_req) & (df['speed'] > 1) *)
Definition is_low_speed (r : Row) : bool :=
  Qlt_bool (speed r) mc_min_speed_req && Qlt_bool 1%Q (speed r).

End Classifier.

Definition date (r : Row) : Z := dt_date (timestamp r).
Definition hour (r : Row) : Z := dt_hour (timestamp r).

(** ** Run segmentation (app.py, lines 122 and 132)

    [(tag != tag.shift()).cumsum()]: [shift] moves every value one place
    down and leaves the first place missing; a missing value differs from
    every boolean, so the first row always counts as a change. *)

Definition shift {A : Type} (xs : list A) : list (option A) :=
  match xs with
  | [] => []
  | _ :: _ => None :: map Some (removelast xs)
  end.

Definition ne_shifted (b : bool) (prev : option bool) : bool :=
  match prev with
  | None => true
  | Some p => negb (eqb b p)
  end.

Fixpoint map2 {A B C : Type} (f : A -> B -> C) (xs : list A) (ys : list B) : list C :=
  match xs, ys with
  | x :: xs', y :: ys' => f x y :: map2 f xs' ys'
  | _, _ => []
  end.

Fixpoint cumsum_from (acc : Z) (bs : list bool) : list Z :=
  match bs with
  | [] => []
  | b :: bs' =>
      let acc' := acc + (if b then 1 else 0) in
      acc' :: cumsum_from acc' bs'
  end.

Definition cumsum (bs : list bool) : list Z := cumsum_from 0 bs.

Definition run_ids (tags : list bool) : list Z :=
  cumsum (map2 ne_shifted tags (shift tags)).

Definition idle_group (df : DataFrame) : list Z := run_ids (map idle df).

Definition low_speed_group (mc_min_speed_req : Q) (df : DataFrame) : list Z :=
  run_ids (map (is_low_speed mc_min_speed_req) df).

(** ** Grouping and aggregation

    [frame.groupby(key)] yields one group per distinct key, in increasing
    key order; a group holds the frame's rows with that key, in frame
    order.  [agg] evaluates its aggregations on every group. *)

Fixpoint insert_key (k : Z) (ks : list Z) : list Z :=
  match ks with
  | [] => [k]
  | k' :: ks' =>
      if k <? k' then k :: ks
      else if k =? k' then ks
      else k' :: insert_key k ks'
  end.

Definition sorted_keys (ks : list Z) : list Z := fold_right insert_key [] ks.

Definition groupby {A : Type} (key : A -> Z) (rows : list A) : list (Z * list A) :=
  map (fun k => (k, filter (fun r => key r =? k) rows))
      (sorted_keys (map key rows)).

Fixpoint mapM {A B : Type} (f : A -> outcome B) (xs : list A) : outcome (list B) :=
  match xs with
  | [] => Value []
  | x :: xs' => y <- f x ;; ys <- mapM f xs' ;; Value (y :: ys)
  end.

(** The aggregations ['first'], ['last'], ['min'], ['max']: missing on an
    empty group. *)
Definition agg_first {A : Type} (xs : list A) : outcome A :=
  match xs with
  | [] => NonFinite
  | x :: _ => Value x
  end.

Definition agg_last {A : Type} (xs : list A) : outcome A :=
  match xs with
  | [] => NonFinite
  | x :: xs' => Value (last xs' x)
  end.

Definition agg_min (xs : list Q) : outcome Q :=
  match xs with
  | [] => NonFinite
  | x :: xs' => Value (fold_left Qmin xs' x)
  end.

Definition agg_max (xs : list Q) : outcome Q :=
  match xs with
  | [] => NonFinite
  | x :: xs' => Value (fold_left Qmax xs' x)
  end.

(** ** Idle events (app.py, lines 122-129) *)

Record IdleEvent : Type := mkIdleEvent {
  ie_idle_group : Z;          (* the index of the table *)
  ie_start : Z;
  ie_end : Z;
  ie_duration : Q;
  ie_avg_speed : Q
}.

(* duration=('timestamp', lambda x: (x.iloc[-1] - x.iloc[0]).total_seconds() / 60) *)
Definition idle_duration (x : list Z) : outcome Q :=
  b <- iloc_last x ;;
  a <- iloc_first x ;;
  Value (elapsed_minutes a b).

Definition agg_idle_event (g : Z * list (Z * Row)) : outcome IdleEvent :=
  let rows := map snd (snd g) in
  s <- agg_first (map timestamp rows) ;;
  e <- agg_last (map timestamp rows) ;;
  d <- idle_duration (map timestamp rows) ;;
  m <- mean (map speed rows) ;;
  Value (mkIdleEvent (fst g) s e d m).

(* df[df['idle']].groupby('idle_group').agg(...) *)
Definition idle_events (df : DataFrame) : outcome (list IdleEvent) :=
  mapM agg_idle_event
    (groupby fst (filter (fun p => idle (snd p)) (combine (idle_group df) df))).

(* idle_events[idle_events['duration'] >= idle_time]

   The durations of a table with rows are floats.  In a table without rows
   the aggregation was never called and the duration column keeps the dtype
   of the timestamps it was to be computed from; comparing it with a number
   raises a TypeError. *)
Definition long_enough (idle_time : Q) (e : IdleEvent) : bool :=
  Qle_bool idle_time (ie_duration e).

Definition duration_at_least (idle_time : Q) (evs : list IdleEvent)
  : outcome (list IdleEvent) :=
  match evs with
  | [] => TypeError
  | _ :: _ => Value (filter (long_enough idle_time) evs)
  end.

Definition long_idles (idle_time : Q) (df : DataFrame) : outcome (list IdleEvent) :=
  evs <- idle_events df ;;
  duration_at_least idle_time evs.

(** ** Low-speed events (app.py, lines 132-140) *)

Record LowSpeedEvent : Type := mkLowSpeedEvent {
  ls_start : Z;
  ls_end : Z;
  ls_duration : Q;
  ls_min_speed : Q;
  ls_max_speed : Q;
  ls_avg_speed : Q
}.

(* duration=('timestamp',
     lambda x: round((x.iloc[-1] - x.iloc[0]).total_seconds() / 60, 4)) *)
Definition low_speed_duration `{ti : Ties} (x : list Z) : outcome Q :=
  b <- iloc_last x ;;
  a <- iloc_first x ;;
  Value (round (elapsed_minutes a b) 4).

Definition agg_low_speed_event `{ti : Ties} (g : Z * list (Z * Row))
  : outcome LowSpeedEvent :=
  let rows := map snd (snd g) in
  s <- agg_first (map timestamp rows) ;;
  e <- agg_last (map timestamp rows) ;;
  d <- low_speed_duration (map timestamp rows) ;;
  lo <- agg_min (map speed rows) ;;
  hi <- agg_max (map speed rows) ;;
  m <- mean (map speed rows) ;;
  Value (mkLowSpeedEvent s e d lo hi m).

(* df[df['is_low_speed']].groupby('low_speed_group').agg(...)
     .reset_index(drop=True) *)
Definition low_speed_events_all `{ti : Ties} (mc_min_speed_req : Q) (df : DataFrame)
  : outcome (list LowSpeedEvent) :=
  mapM agg_low_speed_event
    (groupby fst
       (filter (fun p => is_low_speed mc_min_speed_req (snd p))
               (combine (low_speed_group mc_min_speed_req df) df))).

(** ** Headline KPIs (app.py, lines 113-117) *)

(* (df['timestamp'].iloc[-1] - df['timestamp'].iloc[0]).total_seconds() / 60
     if len(df) > 1 else 0 *)
Definition total_minutes (df : DataFrame) : outcome Q :=
  if (1 <? Z.of_nat (length df)) then
    b <- iloc_last (map timestamp df) ;;
    a <- iloc_first (map timestamp df) ;;
    Value (elapsed_minutes a b)
  else Value 0%Q.

(* df['is_running'].sum() *)
Definition running_minutes (df : DataFrame) : Z :=
  Z.of_nat (length (filter is_running df)).

(* 100 * running_minutes / total_minutes if total_minutes else 0 *)
Definition uptime_percent (df : DataFrame) : outcome Q :=
  tm <- total_minutes df ;;
  if truthy tm then fdiv (100 * inject_Z (running_minutes df))%Q tm
  else Value 0%Q.

(* df.loc[df['is_running'], 'speed'].mean() if running_minutes else 0 *)
Definition avg_speed (df : DataFrame) : outcome Q :=
  if negb (running_minutes df =? 0) then mean (map speed (filter is_running df))
  else Value 0%Q.

(* df['quantity'].iloc[-1] - df['quantity'].iloc[0] if len(df) > 1 else 0 *)
Definition total_production `{dt : Dtypes} (df : DataFrame) : outcome Q :=
  if (1 <? Z.of_nat (length df)) then
    b <- iloc_last (map quantity df) ;;
    a <- iloc_first (map quantity df) ;;
    Value (quantity_sub b a)
  else Value 0%Q.

(** ** Window filter (app.py, lines 165-169 and 185-200)

    [date_range] is the tuple returned by the date picker (one or two day
    numbers), [time_range] the pair of hours (each in 0..23) returned by the
    slider. *)

Definition tuple_get {A : Type} (t : list A) (i : nat) : outcome A :=
  match nth_error t i with
  | Some x => Value x
  | None => IndexError
  end.

Section Window.

Context `{dt : Dtypes}.
Variable date_range : list Z.
Variable time_range : Z * Z.

Definition filtered_df (df : DataFrame) : outcome DataFrame :=
  if (length date_range =? 2)%nat then
    start_date <- tuple_get date_range 0 ;;
    end_date <- tuple_get date_range 1 ;;
    Value (filter (fun r => (start_date <=? date r) && (date r <=? end_date)
                            && (fst time_range <=? hour r)
                            && (hour r <=? snd time_range)) df)
  else
    d <- tuple_get date_range 0 ;;
    Value (filter (fun r => (date r =? d) && (fst time_range <=? hour r)
                            && (hour r <=? snd time_range)) df).

(* datetime.combine(date_range[0], time(time_range[0], 0)) *)
Definition start_datetime : outcome Z :=
  if (length date_range =? 2)%nat then
    d <- tuple_get date_range 0 ;;
    Value (combine_datetime d (fst time_range) 0 0)
  else
    d <- tuple_get date_range 0 ;;
    Value (combine_datetime d (fst time_range) 0 0).

(* datetime.combine(date_range[1], time(time_range[1], 59, 59)), or on
   date_range[0] when the tuple holds one date *)
Definition end_datetime : outcome Z :=
  if (length date_range =? 2)%nat then
    d <- tuple_get date_range 1 ;;
    Value (combine_datetime d (snd time_range) 59 59)
  else
    d <- tuple_get date_range 0 ;;
    Value (combine_datetime d (snd time_range) 59 59).

Definition in_window (lo hi : Z) (e : IdleEvent) : bool :=
  (lo <=? ie_start e) && (ie_end e <=? hi).

Variable idle_time : Q.

(* display_idle_events = idle_events[idle_events['duration'] >= idle_time] *)
Definition display_idle_events (df : DataFrame) : outcome (list IdleEvent) :=
  evs <- idle_events df ;;
  duration_at_least idle_time evs.

(* lines 187-197.  [start_datetime] and [end_datetime] carry no time zone:
   comparing them with timestamps that carry one raises a TypeError. *)
Definition filtered_idle_events (df : DataFrame) : outcome (list IdleEvent) :=
  shown <- display_idle_events df ;;
  lo <- start_datetime ;;
  hi <- end_datetime ;;
  match shown with
  | [] => Value []                      (* pd.DataFrame() *)
  | _ :: _ =>
      if tz_aware then TypeError
      else Value (filter (in_window lo hi) shown)
  end.

End Window.

(* filtered_idle_events.sort_values('duration', ascending=False); pandas
   leaves the order of rows of equal duration open, here they keep the
   order they have in the table. *)
Fixpoint insert_desc (e : IdleEvent) (evs : list IdleEvent) : list IdleEvent :=
  match evs with
  | [] => [e]
  | x :: evs' =>
      if Qle_bool (ie_duration x) (ie_duration e) then e :: evs
      else x :: insert_desc e evs'
  end.

Definition sort_values_duration_desc (evs : list IdleEvent) : list IdleEvent :=
  fold_right insert_desc [] evs.

(* lines 199-206: the table that is shown *)
Definition shown_idle_events `{dt : Dtypes} (date_range : list Z) (time_range : Z * Z)
    (idle_time : Q) (df : DataFrame) : outcome (list IdleEvent) :=
  evs <- filtered_idle_events date_range time_range idle_time df ;;
  match evs with
  | [] => Value []
  | _ :: _ => Value (sort_values_duration_desc evs)
  end.

(** ** Hourly rollup (app.py, lines 213-220) *)

Record HourlyStats : Type := mkHourlyStats {
  Avg_Speed : Q;
  Max_Speed : Q;
  Min_Speed : Q;
  Uptime_Ratio : Q;
  Production : Q;
  Uptime_Percent : Q
}.

Definition Q_of_bool (b : bool) : Q := if b then 1%Q else 0%Q.

(* lambda x: x.iloc[-1] - x.iloc[0] if len(x) > 1 else 0 *)
Definition hour_production `{dt : Dtypes} (x : list Q) : outcome Q :=
  if (1 <? Z.of_nat (length x)) then
    b <- iloc_last x ;;
    a <- iloc_first x ;;
    Value (quantity_sub b a)
  else Value 0%Q.

Definition agg_hour `{dt : Dtypes} `{ti : Ties} (g : Z * list Row)
  : outcome (Z * HourlyStats) :=
  let rows := snd g in
  av <- mean (map speed rows) ;;
  mx <- agg_max (map speed rows) ;;
  mn <- agg_min (map speed rows) ;;
  up <- mean (map (fun r => Q_of_bool (is_running r)) rows) ;;
  pr <- hour_production (map quantity rows) ;;
  (* .round(2) on the whole table *)
  let ratio := np_round up 2 in
  Value (fst g,
         mkHourlyStats (np_round av 2) (np_round mx 2) (np_round mn 2) ratio
           (np_round pr 2)
           (* (hourly_stats['Uptime_Ratio'] * 100).round(1) *)
           (np_round (ratio * 100)%Q 1)).

Definition hourly_stats `{dt : Dtypes} `{ti : Ties} (fdf : DataFrame)
  : outcome (list (Z * HourlyStats)) :=
  mapM agg_hour (groupby hour fdf).


(** ** The script as a whole: what one run of it displays *)

Record Screen : Type := mkScreen {
  kpi_uptime : outcome Q;
  kpi_avg_speed : outcome Q;
  kpi_production : outcome Q;
  kpi_idle_events : outcome nat;
  low_speed_table : outcome (list LowSpeedEvent);
  idle_table : outcome (list IdleEvent);
  hourly_table : outcome (list (Z * HourlyStats))
}.

Definition run_script `{dt : Dtypes} `{ti : Ties} (mc_min_speed_req idle_time : Q)
    (date_range : list Z) (time_range : Z * Z) (df : DataFrame) : Screen :=
  mkScreen
    (uptime_percent df)
    (avg_speed df)
    (total_production df)
    (l <- long_idles idle_time df ;; Value (length l))
    (low_speed_events_all mc_min_speed_req df)
    (shown_idle_events date_range time_range idle_time df)
    (fdf <- filtered_df date_range time_range df ;; hourly_stats fdf).

(** ** Maximal runs by a plain scan

    The reference against which the segmentation is checked: [runs tag l]
    cuts [l] into its maximal groups of neighbours with equal tag, and
    [label_runs n gs] numbers the samples of consecutive groups
    [n], [n+1], ... *)

Fixpoint runs {A : Type} (tag : A -> bool) (l : list A) : list (list A) :=
  match l with
  | [] => []
  | x :: l' =>
      match runs tag l' with
      | (y :: g) :: gs =>
          if eqb (tag x) (tag y) then (x :: y :: g) :: gs
          else [x] :: (y :: g) :: gs
      | _ => [[x]]
      end
  end.

Fixpoint label_runs {A : Type} (n : Z) (gs : list (list A)) : list Z :=
  match gs with
  | [] => []
  | g :: gs' => repeat n (length g) ++ label_runs (n + 1) gs'
  end.

(** The runs whose samples carry the tag. *)
Definition run_tag {A : Type} (tag : A -> bool) (g : list A) : bool :=
  match g with
  | [] => false
  | x :: _ => tag x
  end.

Definition true_runs {A : Type} (tag : A -> bool) (l : list A) : list (list A) :=
  filter (run_tag tag) (runs tag l).

(** The run ids read as one forward pass: [ids_after acc prev bs] are the ids
    of the samples [bs] that follow a sample of tag [prev] and id [acc]. *)
Fixpoint ids_after (acc : Z) (prev : bool) (bs : list bool) : list Z :=
  match bs with
  | [] => []
  | b :: bs' =>
      let acc' := acc + (if eqb b prev then 0 else 1) in
      acc' :: ids_after acc' b bs'
  end.

(** No two neighbouring runs carry the same tag. *)
Fixpoint alternating {A : Type} (tag : A -> bool) (gs : list (list A)) : Prop :=
  match gs with
  | g1 :: ((g2 :: _) as gs') =>
      run_tag tag g1 <> run_tag tag g2 /\ alternating tag gs'
  | _ => True
  end.

(** What the segmenter owes for a tag column: the ids number the maximal
    runs 1, 2, ... in order; from one sample to the next the id stays when
    the tag stays and grows by one when the tag changes; and there are as
    many distinct ids as maximal runs. *)
Definition segmented (tag : Row -> bool) (ids : list Z) (df : DataFrame) : Prop :=
  ids = label_runs 1 (runs tag df) /\
  (forall (i : nat) (r1 r2 : Row) (a b : Z),
      nth_error df i = Some r1 -> nth_error df (S i) = Some r2 ->
      nth_error ids i = Some a -> nth_error ids (S i) = Some b ->
      b = a + (if eqb (tag r1) (tag r2) then 0 else 1)) /\
  length (nodup Z.eq_dec ids) = length (runs tag df).

(** The maximal runs with their numbers, and the rows of a numbered run as
    they stand in the frame that carries the group column. *)
Fixpoint number_runs {A : Type} (n : Z) (gs : list (list A)) : list (Z * list A) :=
  match gs with
  | [] => []
  | g :: gs' => (n, g) :: number_runs (n + 1) gs'
  end.

Definition with_id {A : Type} (b : Z * list A) : list (Z * A) :=
  map (pair (fst b)) (snd b).

Fixpoint ascending {A : Type} (bs : list (Z * A)) : Prop :=
  match bs with
  | [] => True
  | b :: bs' => Forall (fun b' => fst b < fst b') bs' /\ ascending bs'
  end.

Definition tagged_block {A : Type} (tag : A -> bool) (b : Z * list A) : bool :=
  run_tag tag (snd b).

(** An event against the run it summarises: it starts at the run's first
    sample, ends at its last, and reports [shown] for the minutes elapsed
    between the two. *)
Definition summarises (shown : Q -> Q) (g : list Row) (s e : Z) (d : Q) : Prop :=
  exists first rest,
    g = first :: rest /\
    s = timestamp first /\
    e = timestamp (last rest first) /\
    d = shown (elapsed_minutes (timestamp first) (timestamp (last rest first))).

Definition idle_event_of_run (g : list Row) (ev : IdleEvent) : Prop :=
  summarises (fun d => d) g (ie_start ev) (ie_end ev) (ie_duration ev).

Definition low_speed_event_of_run `{ti : Ties} (g : list Row) (ev : LowSpeedEvent)
  : Prop :=
  summarises (fun d => round d 4) g (ls_start ev) (ls_end ev) (ls_duration ev).

(** A row of the hourly rollup against the samples of its hour. *)
Definition is_max (m : Q) (xs : list Q) : Prop :=
  In m xs /\ forall x, In x xs -> (x <= m)%Q.

Definition is_min (m : Q) (xs : list Q) : Prop :=
  In m xs /\ forall x, In x xs -> (m <= x)%Q.

Definition rolls_up `{dt : Dtypes} `{ti : Ties} (rows : list Row) (s : HourlyStats) : Prop :=
  let n := inject_Z (Z.of_nat (length rows)) in
  Avg_Speed s = np_round (Qsum (map speed rows) / n) 2 /\
  (exists m, is_max m (map speed rows) /\ Max_Speed s = np_round m 2) /\
  (exists m, is_min m (map speed rows) /\ Min_Speed s = np_round m 2) /\
  Uptime_Percent s
  = np_round (np_round (Qsum (map (fun r => Q_of_bool (is_running r)) rows) / n) 2
              * 100) 1 /\
  (exists first rest,
      rows = first :: rest /\
      Production s
      = np_round (match rest with
                  | [] => 0
                  | _ :: _ => quantity_sub (quantity (last rest first))
                                           (quantity first)
                  end) 2).

(** ** Frames used in the worked scenarios *)

(** A sample taken [m] minutes after the epoch's midnight, with speed [s] and
    counter [q]. *)
Definition sample_at (m s q : Z) : Row :=
  mkRow (m * 60 * ns_per_second) (inject_Z s) (inject_Z q).

(** Minute marks 0..9 with speeds 0,0,0,5,5,12,12,3,0,0. *)
Definition ten_minutes : DataFrame :=
  [sample_at 0 0 0; sample_at 1 0 0; sample_at 2 0 0; sample_at 3 5 1;
   sample_at 4 5 2; sample_at 5 12 4; sample_at 6 12 6; sample_at 7 3 7;
   sample_at 8 0 7; sample_at 9 0 7].

(** An idle stretch over minutes 58..62, across the end of hour 0. *)
Definition across_the_hour : DataFrame :=
  [sample_at 57 20 0; sample_at 58 0 1; sample_at 59 0 1; sample_at 60 0 1;
   sample_at 61 0 1; sample_at 62 0 1; sample_at 63 20 2].

(** ** Choosing the file (app.py, lines 69-70 and 79)

    A Python dict keeps its keys in the order of their first insertion; a
    later insertion under a key that is present replaces the value where it
    stands. *)

Record DriveFile : Type := mkDriveFile {
  file_id : String.string;
  file_name : String.string
}.

Definition Dict : Type := list (String.string * String.string).

Fixpoint dict_set (k v : String.string) (d : Dict) : Dict :=
  match d with
  | [] => [(k, v)]
  | (k', v') :: d' =>
      if String.eqb k k' then (k, v) :: d' else (k', v') :: dict_set k v d'
  end.

(** [d[k]]: [None] stands for the KeyError. *)
Fixpoint dict_getitem (k : String.string) (d : Dict) : option String.string :=
  match d with
  | [] => None
  | (k', v) :: d' => if String.eqb k k' then Some v else dict_getitem k d'
  end.

(* file_map = {file['name']: file['id'] for file in drive_files} *)
Definition add_file (d : Dict) (f : DriveFile) : Dict :=
  dict_set (file_name f) (file_id f) d.

Definition file_map (drive_files : list DriveFile) : Dict :=
  fold_left add_file drive_files [].

(* file_names = list(file_map.keys()) *)
Definition file_names (drive_files : list DriveFile) : list String.string :=
  map fst (file_map drive_files).

(** ** Loading the frame (app.py, lines 82-83)

    A raw row is a row of the CSV after [pd.to_datetime(..., errors='coerce')]:
    its timestamp is missing when the text did not parse. *)

Record RawRow : Type := mkRawRow {
  raw_timestamp : option Z;
  raw_speed : Q;
  raw_quantity : Q
}.

(* df.dropna(subset=['timestamp']) *)
Fixpoint dropna (raw : list RawRow) : DataFrame :=
  match raw with
  | [] => []
  | r :: raw' =>
      match raw_timestamp r with
      | Some t => mkRow t (raw_speed r) (raw_quantity r) :: dropna raw'
      | None => dropna raw'
      end
  end.

(* .sort_values('timestamp'); pandas leaves the order of rows of equal
   timestamp open, here they keep the order they have in the frame. *)
Fixpoint insert_row (r : Row) (df : DataFrame) : DataFrame :=
  match df with
  | [] => [r]
  | x :: df' =>
      if timestamp r <=? timestamp x then r :: df else x :: insert_row r df'
  end.

Definition sort_values_timestamp (df : DataFrame) : DataFrame :=
  fold_right insert_row [] df.

Definition load (raw : list RawRow) : DataFrame :=
  sort_values_timestamp (dropna raw).

(** A frame in time order, as [load] leaves it. *)
Fixpoint non_decreasing (ts : list Z) : Prop :=
  match ts with
  | [] => True
  | t :: ts' => Forall (fun t' => t <= t') ts' /\ non_decreasing ts'
  end.

Definition chronological (df : DataFrame) : Prop :=
  non_decreasing (map timestamp df).

(** ** The bounds offered by the date picker (app.py, lines 109-110) *)

(* Series.min() and Series.max(): missing on an empty series *)
Definition series_min (xs : list Z) : outcome Z :=
  match xs with
  | [] => NonFinite
  | x :: xs' => Value (fold_left Z.min xs' x)
  end.

Definition series_max (xs : list Z) : outcome Z :=
  match xs with
  | [] => NonFinite
  | x :: xs' => Value (fold_left Z.max xs' x)
  end.

(* df['timestamp'].dt.date.min() and .max() *)
Definition min_date (df : DataFrame) : outcome Z := series_min (map date df).
Definition max_date (df : DataFrame) : outcome Z := series_max (map date df).

(** ** Low-speed events by duration (app.py, line 143) *)

Fixpoint insert_desc_low_speed (e : LowSpeedEvent) (evs : list LowSpeedEvent)
  : list LowSpeedEvent :=
  match evs with
  | [] => [e]
  | x :: evs' =>
      if Qle_bool (ls_duration x) (ls_duration e) then e :: evs
      else x :: insert_desc_low_speed e evs'
  end.

(* low_speed_events_all.sort_values('duration', ascending=False) *)
Definition low_speed_events_sorted `{ti : Ties} (mc_min_speed_req : Q) (df : DataFrame)
  : outcome (list LowSpeedEvent) :=
  evs <- low_speed_events_all mc_min_speed_req df ;;
  Value (fold_right insert_desc_low_speed [] evs).

(** ** Production rate (app.py, line 305) *)

(* Series.diff(): each value minus the one before it, missing in the first
   place *)
Definition diff (xs : list Q) : list (option Q) :=
  map2 (fun x prev => option_map (fun p => (x - p)%Q) prev) xs (shift xs).

(* Series.fillna(v) *)
Definition fillna (v : Q) (xs : list (option Q)) : list Q :=
  map (fun o => match o with Some x => x | None => v end) xs.

(* filtered_df['quantity'].diff().fillna(0) *)
Definition production_rate (fdf : DataFrame) : list Q :=
  fillna 0 (diff (map quantity fdf)).

(** The production rate read as one forward pass: [deltas prev qs] are the
    steps of the counter values [qs] that follow the value [prev]. *)
Fixpoint deltas (prev : Q) (qs : list Q) : list Q :=
  match qs with
  | [] => []
  | q :: qs' => (q - prev)%Q :: deltas q qs'
  end.

(** ** Vocabulary of the further properties *)

(** The instants start, end, start, end, ... of a table of events, in table
    order. *)
Definition idle_instants (evs : list IdleEvent) : list Z :=
  flat_map (fun ev => [ie_start ev; ie_end ev]) evs.

Definition low_speed_instants (evs : list LowSpeedEvent) : list Z :=
  flat_map (fun ev => [ls_start ev; ls_end ev]) evs.

(** The first and the last instant of each run, run after run. *)
Definition run_instants (gs : list (list Row)) : list Z :=
  flat_map (fun g => match g with
                     | [] => []
                     | first :: rest => [timestamp first; timestamp (last rest first)]
                     end) gs.

(** An event against its run, speeds included. *)
Definition idle_event_of_block (b : Z * list Row) (ev : IdleEvent) : Prop :=
  ie_idle_group ev = fst b /\
  idle_event_of_run (snd b) ev /\
  mean (map speed (snd b)) = Value (ie_avg_speed ev).


(** The numbered maximal runs of tagged samples. *)
Definition true_blocks (tag : Row -> bool) (df : DataFrame) : list (Z * list Row) :=
  filter (tagged_block tag) (number_runs 1 (runs tag df)).

(** Group numbers that go up in steps of two. *)
Fixpoint steps_by_two (ks : list Z) : Prop :=
  match ks with
  | k1 :: ((k2 :: _) as ks') => k2 = k1 + 2 /\ steps_by_two ks'
  | _ => True
  end.

(** Durations from the longest to the shortest. *)
Fixpoint non_increasing (ds : list Q) : Prop :=
  match ds with
  | [] => True
  | d :: ds' => Forall (fun d' => (d' <= d)%Q) ds' /\ non_increasing ds'
  end.

(** Keys in strictly increasing order. *)
Fixpoint increasing (ks : list Z) : Prop :=
  match ks with
  | [] => True
  | k :: ks' => Forall (fun k' => k < k') ks' /\ increasing ks'
  end.

(** The counter never runs backwards along the frame. *)
Fixpoint counter_grows (qs : list Q) : Prop :=
  match qs with
  | [] => True
  | q :: qs' => Forall (fun q' => (q <= q')%Q) qs' /\ counter_grows qs'
  end.

(** ** Vocabulary of the statements

    What the properties below say of the code is written with the
    definitions of this section, which use none of the functions that embed
    the code: a statement then says what the code computes, not that it
    computes what it computes. *)

(** The minutes from the instant [s] to the instant [e], both in
    nanoseconds. *)
Definition minutes_from_to (s e : Z) : Q :=
  (inject_Z (e - s) / inject_Z 60000000000)%Q.

(** [r] is [x] rounded to [n] decimal places: a whole multiple of 10^-n at
    a distance of at most half of 10^-n from [x]. *)
Definition rounded_to (n : nat) (x r : Q) : Prop :=
  exists k : Z,
    (r == inject_Z k / inject_Z (10 ^ Z.of_nat n))%Q /\
    (inject_Z k - (1 # 2) <= x * inject_Z (10 ^ Z.of_nat n))%Q /\
    (x * inject_Z (10 ^ Z.of_nat n) <= inject_Z k + (1 # 2))%Q.



(** An idle event against the run it stands for: it starts at the run's
    first sample, ends at its last, and its duration is the minutes from the
    one to the other. *)
Definition idle_event_for (g : list Row) (ev : IdleEvent) : Prop :=
  exists first rest,
    g = first :: rest /\
    ie_start ev = timestamp first /\
    ie_end ev = timestamp (last rest first) /\
    (ie_duration ev
     == minutes_from_to (timestamp first) (timestamp (last rest first)))%Q.

(** A low-speed event against its run: the same, with the duration rounded
    to 4 decimal places. *)
Definition low_speed_event_for (g : list Row) (ev : LowSpeedEvent) : Prop :=
  exists first rest,
    g = first :: rest /\
    ls_start ev = timestamp first /\
    ls_end ev = timestamp (last rest first) /\
    rounded_to 4 (minutes_from_to (timestamp first) (timestamp (last rest first)))
               (ls_duration ev).

(** The quantities of the rows subtract without wrapping around: they are
    floats, or 64-bit integers of magnitude below 2^52, whose differences
    are the same in int64 and in float64. *)
Definition subtracts_exactly `{dt : Dtypes} (rows : list Row) : Prop :=
  quantity_int64 = false \/
  Forall (fun r => exists z, (quantity r == inject_Z z)%Q /\
                             - 2 ^ 52 <= z < 2 ^ 52) rows.


(** * Properties *)

(** ** Comparisons on rationals *)

Lemma Qlt_bool_iff (a b : Q) : Qlt_bool a b = true <-> (a < b)%Q.
Proof.
  unfold Qlt_bool. rewrite negb_true_iff.
  split.
  - intros H. apply Qnot_le_lt. intros Hle.
    apply Qle_bool_iff in Hle. congruence.
  - intros H. destruct (Qle_bool b a) eqn:E; [|reflexivity].
    apply Qle_bool_iff in E. exfalso. exact (Qlt_not_le _ _ H E).
Qed.

Lemma Qlt_bool_false_iff (a b : Q) : Qlt_bool a b = false <-> (b <= a)%Q.
Proof.
  unfold Qlt_bool. rewrite negb_false_iff. apply Qle_bool_iff.
Qed.

Lemma truthy_false_iff (x : Q) : truthy x = false <-> (x == 0)%Q.
Proof.
  unfold truthy. rewrite negb_false_iff. apply Qeq_bool_iff.
Qed.

Lemma truthy_true_iff (x : Q) : truthy x = true <-> ~ (x == 0)%Q.
Proof.
  unfold truthy. rewrite negb_true_iff. split.
  - intros H E. apply Qeq_bool_iff in E. congruence.
  - intros H. destruct (Qeq_bool x 0) eqn:E; [|reflexivity].
    apply Qeq_bool_iff in E. contradiction.
Qed.

(** ** Rounding *)

Lemma rint_bounds (up : bool) (x : Q) : Qfloor x <= rint up x <= Qfloor x + 1.
Proof.
  unfold rint.
  destruct (Qcompare (x - inject_Z (Qfloor x)) (1 # 2)); [|lia|lia].
  destruct up; lia.
Qed.

(** Whatever way a tie goes, [rint] is at most a half away. *)
Lemma rint_near (up : bool) (x : Q) :
  (inject_Z (rint up x) - (1 # 2) <= x)%Q /\
  (x <= inject_Z (rint up x) + (1 # 2))%Q.
Proof.
  pose proof (Qfloor_le x) as Hlo. pose proof (Qlt_floor x) as Hhi.
  rewrite inject_Z_plus in Hhi. unfold rint.
  destruct (Qcompare_spec (x - inject_Z (Qfloor x)) (1 # 2)) as [Hc|Hc|Hc];
    [destruct up|..]; rewrite ?inject_Z_plus;
    revert Hlo Hhi Hc; generalize (inject_Z (Qfloor x)); intros f Hlo Hhi Hc;
    change (inject_Z 1) with 1%Q in *; split; lra.
Qed.

Lemma rint_mono_lt (u v : bool) (x y : Q) : (x < y)%Q -> rint u x <= rint v y.
Proof.
  intros Hxy. destruct (Z.le_gt_cases (rint u x) (rint v y)) as [H|H]; [exact H|].
  exfalso.
  assert (H1 : (inject_Z (rint v y + 1) <= inject_Z (rint u x))%Q).
  { rewrite <- Zle_Qle. lia. }
  rewrite inject_Z_plus in H1. change (inject_Z 1) with 1%Q in H1.
  destruct (rint_near u x) as [Hx _]. destruct (rint_near v y) as [_ Hy].
  revert H1 Hx Hy. generalize (inject_Z (rint u x)) (inject_Z (rint v y)).
  intros a b H1 Hx Hy. lra.
Qed.

Lemma rint_comp (up : bool) (x y : Q) : (x == y)%Q -> rint up x = rint up y.
Proof.
  intros E. unfold rint. rewrite (Qfloor_comp x y E).
  assert (Ec : ((x - inject_Z (Qfloor y) ?= 1 # 2)
                = (y - inject_Z (Qfloor y) ?= 1 # 2))%Q).
  { apply Qcompare_comp; [|reflexivity]. rewrite E. reflexivity. }
  now rewrite Ec.
Qed.

Lemma rint_inject_Z (up : bool) (k : Z) : rint up (inject_Z k) = k.
Proof.
  unfold rint. rewrite Qfloor_Z.
  assert (E : (inject_Z k - inject_Z k ?= 1 # 2)%Q = Lt).
  { rewrite <- Qlt_alt. generalize (inject_Z k). intros q. lra. }
  now rewrite E.
Qed.

Lemma pow10_pos (n : nat) : (0 < pow10 n)%Q.
Proof.
  unfold pow10. change 0%Q with (inject_Z 0). rewrite <- Zlt_Qlt.
  apply Z.pow_pos_nonneg; lia.
Qed.

Lemma pow10_nonzero (n : nat) : ~ (pow10 n == 0)%Q.
Proof.
  intros E. pose proof (pow10_pos n) as Hp. rewrite E in Hp.
  exact (Qlt_irrefl 0 Hp).
Qed.

Section RoundWith.

Variable tie_up : Q -> nat -> bool.

Lemma round_with_mono (x y : Q) (n : nat) :
  (x <= y)%Q -> (round_with tie_up x n <= round_with tie_up y n)%Q.
Proof.
  intros Hxy. unfold round_with.
  pose proof (pow10_pos n) as Hp.
  apply Qle_shift_div_l; [assumption|].
  unfold Qdiv. rewrite <- Qmult_assoc, (Qmult_comm (/ pow10 n)), Qmult_inv_r, Qmult_1_r
    by apply pow10_nonzero.
  rewrite <- Zle_Qle.
  destruct (Qeq_dec x y) as [E|NE].
  - rewrite (Qred_complete x y E).
    rewrite (rint_comp _ (x * pow10 n) (y * pow10 n)); [lia|].
    now rewrite E.
  - apply rint_mono_lt. apply Qmult_lt_compat_r; [assumption|].
    destruct (Qle_lt_or_eq x y Hxy) as [H|H]; [assumption|contradiction].
Qed.

(** A whole number is its own rounding. *)
Lemma round_with_inject_Z (k : Z) (n : nat) :
  (round_with tie_up (inject_Z k) n == inject_Z k)%Q.
Proof.
  unfold round_with, pow10.
  rewrite (rint_comp _ _ (inject_Z (k * 10 ^ Z.of_nat n))).
  - rewrite rint_inject_Z, inject_Z_mult.
    pose proof (pow10_nonzero n) as Hp. unfold pow10 in Hp.
    field. exact Hp.
  - now rewrite inject_Z_mult.
Qed.

Lemma round_with_between (x : Q) (lo hi : Z) (n : nat) :
  (inject_Z lo <= x)%Q -> (x <= inject_Z hi)%Q ->
  (inject_Z lo <= round_with tie_up x n)%Q /\
  (round_with tie_up x n <= inject_Z hi)%Q.
Proof.
  intros Hlo Hhi. split.
  - rewrite <- (round_with_inject_Z lo n). now apply round_with_mono.
  - rewrite <- (round_with_inject_Z hi n). now apply round_with_mono.
Qed.

Lemma round_with_nonneg (x : Q) (n : nat) :
  (0 <= x)%Q -> (0 <= round_with tie_up x n)%Q.
Proof.
  intros H. change 0%Q with (inject_Z 0).
  rewrite <- (round_with_inject_Z 0 n). now apply round_with_mono.
Qed.

(** What the code calls rounding is rounding. *)
Lemma round_with_rounded_to (x : Q) (n : nat) :
  rounded_to n x (round_with tie_up x n).
Proof.
  unfold rounded_to, round_with.
  exists (rint (tie_up (Qred x) n) (x * pow10 n)).
  split; [reflexivity|]. apply rint_near.
Qed.


End RoundWith.

Lemma rounded_to_proper (n : nat) (x x' r r' : Q) :
  (x == x')%Q -> (r == r')%Q -> rounded_to n x r -> rounded_to n x' r'.
Proof.
  intros Ex Er (k & Hr & Hlo & Hhi). exists k.
  rewrite <- Ex, <- Er. auto.
Qed.

(** ** Means lie between the extremes *)

Lemma inject_Z_length_cons {A : Type} (x : A) (xs : list A) :
  (inject_Z (Z.of_nat (length (x :: xs))) == inject_Z (Z.of_nat (length xs)) + 1)%Q.
Proof.
  simpl length. rewrite Nat2Z.inj_succ, <- Z.add_1_r, inject_Z_plus. reflexivity.
Qed.

Lemma inject_Z_length_nonneg {A : Type} (xs : list A) :
  (0 <= inject_Z (Z.of_nat (length xs)))%Q.
Proof. change 0%Q with (inject_Z 0). rewrite <- Zle_Qle. lia. Qed.

Lemma Qsum_upper (xs : list Q) (m : Q) :
  (forall x, In x xs -> (x <= m)%Q) ->
  (Qsum xs <= inject_Z (Z.of_nat (length xs)) * m)%Q.
Proof.
  induction xs as [|x xs IH]; intros H.
  - simpl. rewrite Qmult_0_l. apply Qle_refl.
  - rewrite inject_Z_length_cons. simpl Qsum.
    assert (Hx : (x <= m)%Q) by (apply H; now left).
    assert (Hs : (Qsum xs <= inject_Z (Z.of_nat (length xs)) * m)%Q)
      by (apply IH; intros; apply H; now right).
    revert Hs. generalize (inject_Z (Z.of_nat (length xs))) (Qsum xs).
    intros n s Hs. lra.
Qed.

Lemma Qsum_lower (xs : list Q) (m : Q) :
  (forall x, In x xs -> (m <= x)%Q) ->
  (inject_Z (Z.of_nat (length xs)) * m <= Qsum xs)%Q.
Proof.
  induction xs as [|x xs IH]; intros H.
  - simpl. rewrite Qmult_0_l. apply Qle_refl.
  - rewrite inject_Z_length_cons. simpl Qsum.
    assert (Hx : (m <= x)%Q) by (apply H; now left).
    assert (Hs : (inject_Z (Z.of_nat (length xs)) * m <= Qsum xs)%Q)
      by (apply IH; intros; apply H; now right).
    revert Hs. generalize (inject_Z (Z.of_nat (length xs))) (Qsum xs).
    intros n s Hs. lra.
Qed.

Lemma average_between (xs : list Q) (lo hi : Q) :
  xs <> [] ->
  (forall x, In x xs -> (lo <= x)%Q) ->
  (forall x, In x xs -> (x <= hi)%Q) ->
  (lo <= Qsum xs / inject_Z (Z.of_nat (length xs)))%Q /\
  (Qsum xs / inject_Z (Z.of_nat (length xs)) <= hi)%Q.
Proof.
  intros Hne Hlo Hhi.
  assert (Hn : (0 < inject_Z (Z.of_nat (length xs)))%Q).
  { change 0%Q with (inject_Z 0). rewrite <- Zlt_Qlt.
    destruct xs; [contradiction|simpl length; lia]. }
  pose proof (Qsum_lower xs lo Hlo) as H1.
  pose proof (Qsum_upper xs hi Hhi) as H2.
  split.
  - apply Qle_shift_div_l; [assumption|]. rewrite Qmult_comm. exact H1.
  - apply Qle_shift_div_r; [assumption|]. rewrite Qmult_comm. exact H2.
Qed.

Lemma mean_between (xs : list Q) (lo hi m : Q) :
  mean xs = Value m ->
  (forall x, In x xs -> (lo <= x)%Q) ->
  (forall x, In x xs -> (x <= hi)%Q) ->
  (lo <= m)%Q /\ (m <= hi)%Q.
Proof.
  intros Hm Hlo Hhi. destruct xs as [|x xs]; [discriminate|].
  simpl in Hm. inversion Hm; subst m.
  apply (average_between (x :: xs) lo hi); [discriminate|assumption|assumption].
Qed.

(** ** Sample classifier *)

Lemma idle_iff (r : Row) : idle r = true <-> (speed r <= 1)%Q.
Proof. apply Qle_bool_iff. Qed.

Lemma is_running_iff (r : Row) : is_running r = true <-> (1 < speed r)%Q.
Proof. apply Qlt_bool_iff. Qed.

Lemma idle_not_running (r : Row) : idle r = negb (is_running r).
Proof. unfold idle, is_running, Qlt_bool. now rewrite negb_involutive. Qed.

Lemma is_low_speed_iff (req : Q) (r : Row) :
  is_low_speed req r = true <-> (1 < speed r)%Q /\ (speed r < req)%Q.
Proof.
  unfold is_low_speed. rewrite andb_true_iff, !Qlt_bool_iff. tauto.
Qed.

(** C3: [idle] holds iff speed <= 1 and [is_running] iff speed > 1, so
    exactly one of the two holds for every sample; [is_low_speed] holds iff
    1 < speed < min_speed_requirement, it implies [is_running], and with a
    requirement of at most 1 no sample is low-speed. *)
Theorem classifier_tags (mc_min_speed_req : Q) (r : Row) :
  (idle r = true <-> (speed r <= 1)%Q) /\
  (is_running r = true <-> (1 < speed r)%Q) /\
  xorb (idle r) (is_running r) = true /\
  (is_low_speed mc_min_speed_req r = true <->
     (1 < speed r)%Q /\ (speed r < mc_min_speed_req)%Q) /\
  (is_low_speed mc_min_speed_req r = true -> is_running r = true) /\
  ((mc_min_speed_req <= 1)%Q -> is_low_speed mc_min_speed_req r = false).
Proof.
  split; [apply idle_iff|].
  split; [apply is_running_iff|].
  split.
  { rewrite idle_not_running. now destruct (is_running r). }
  split; [apply is_low_speed_iff|].
  split.
  - intros H. apply is_low_speed_iff in H. apply is_running_iff. tauto.
  - intros Hreq. destruct (is_low_speed mc_min_speed_req r) eqn:E; [|reflexivity].
    apply is_low_speed_iff in E. destruct E as [H1 H2].
    exfalso. apply (Qlt_irrefl 1).
    apply Qlt_le_trans with (speed r); [assumption|].
    apply Qle_trans with mc_min_speed_req; [apply Qlt_le_weak|]; assumption.
Qed.

Lemma classifier_tags_witness :
  (1 # 2 <= 1)%Q /\ is_low_speed (1 # 2) (mkRow 0 (3 # 4) 0) = false.
Proof.
  split.
  - discriminate.
  - apply (classifier_tags (1 # 2) (mkRow 0 (3 # 4) 0)). discriminate.
Defined.

(** ** Run segmenter *)

Section Runs.

Context {A : Type}.
Variable tag : A -> bool.

Lemma runs_cons_head (x : A) (l : list A) :
  exists g gs, runs tag (x :: l) = (x :: g) :: gs.
Proof.
  simpl. destruct (runs tag l) as [|[|y g] gs]; eauto.
  destruct (eqb (tag x) (tag y)); eauto.
Qed.

Lemma runs_concat (l : list A) : concat (runs tag l) = l.
Proof.
  induction l as [|x l IH]; [reflexivity|].
  simpl. destruct l as [|x' l'].
  - reflexivity.
  - destruct (runs_cons_head x' l') as (g & gs & E).
    rewrite E in *. simpl in IH.
    destruct (eqb (tag x) (tag x')); simpl; now rewrite IH.
Qed.

Lemma runs_nonempty (l : list A) : Forall (fun g => g <> []) (runs tag l).
Proof.
  induction l as [|x l IH]; [constructor|].
  simpl. destruct (runs tag l) as [|[|y g] gs].
  - repeat constructor. discriminate.
  - repeat constructor. discriminate.
  - inversion IH; subst.
    destruct (eqb (tag x) (tag y)); repeat constructor; try discriminate; assumption.
Qed.

(** Every sample of a run carries the tag of the run. *)
Lemma runs_constant (l : list A) :
  Forall (fun g => forall a, In a g -> tag a = run_tag tag g) (runs tag l).
Proof.
  induction l as [|x l IH]; [constructor|].
  simpl. destruct (runs tag l) as [|[|y g] gs].
  - repeat constructor. intros a [<-|[]]. reflexivity.
  - repeat constructor. intros a [<-|[]]. reflexivity.
  - inversion IH as [|? ? Hg Hgs]; subst.
    destruct (eqb (tag x) (tag y)) eqn:E.
    + constructor; [|assumption].
      apply eqb_prop in E. intros a [<-|Ha]; [reflexivity|].
      simpl. rewrite E. apply (Hg a Ha).
    + constructor; [|constructor; assumption].
      intros a [<-|[]]. reflexivity.
Qed.

Lemma runs_alternating (l : list A) : alternating tag (runs tag l).
Proof.
  induction l as [|x l IH]; [exact I|].
  simpl. destruct (runs tag l) as [|[|y g] gs] eqn:E.
  - exact I.
  - exact I.
  - destruct (eqb (tag x) (tag y)) eqn:Exy.
    + apply eqb_prop in Exy. simpl in *.
      destruct gs as [|g2 gs]; [exact I|].
      rewrite Exy. exact IH.
    + split; [|exact IH].
      simpl. intros H. rewrite H, eqb_reflx in Exy. discriminate.
Qed.

Lemma shifted_cons (p : option bool) (b b' : bool) (bs : list bool) :
  map2 ne_shifted (b :: b' :: bs) (p :: map Some (removelast (b :: b' :: bs)))
  = ne_shifted b p
    :: map2 ne_shifted (b' :: bs) (Some b :: map Some (removelast (b' :: bs))).
Proof. reflexivity. Qed.

Lemma cumsum_shifted (bs : list bool) (acc : Z) (prev b : bool) :
  cumsum_from acc
    (map2 ne_shifted (b :: bs) (Some prev :: map Some (removelast (b :: bs))))
  = ids_after acc prev (b :: bs).
Proof.
  revert acc prev b.
  induction bs as [|b' bs IH]; intros acc prev b.
  - simpl. destruct (eqb b prev); reflexivity.
  - rewrite shifted_cons. cbn [cumsum_from ne_shifted]. rewrite IH.
    cbn [ids_after]. destruct (eqb b prev); reflexivity.
Qed.

Lemma run_ids_cons (b : bool) (bs : list bool) :
  run_ids (b :: bs) = 1 :: ids_after 1 b bs.
Proof.
  unfold run_ids, cumsum, shift.
  destruct bs as [|b' bs]; [reflexivity|].
  rewrite shifted_cons. cbn [cumsum_from ne_shifted].
  now rewrite cumsum_shifted.
Qed.

Lemma ids_after_runs (l : list A) (acc : Z) (x : A) :
  acc :: ids_after acc (tag x) (map tag l) = label_runs acc (runs tag (x :: l)).
Proof.
  revert acc x. induction l as [|y l IH]; intros acc x; [reflexivity|].
  specialize (IH (acc + (if eqb (tag y) (tag x) then 0 else 1)) y).
  change (ids_after acc (tag x) (map tag (y :: l)))
    with ((acc + (if eqb (tag y) (tag x) then 0 else 1))
          :: ids_after (acc + (if eqb (tag y) (tag x) then 0 else 1))
               (tag y) (map tag l)).
  rewrite IH.
  destruct (runs_cons_head y l) as (g & gs & E).
  change (runs tag (x :: y :: l)) with
    (match runs tag (y :: l) with
     | (y0 :: g0) :: gs0 =>
         if eqb (tag x) (tag y0) then (x :: y0 :: g0) :: gs0
         else [x] :: (y0 :: g0) :: gs0
     | _ => [[x]]
     end).
  rewrite E.
  destruct (tag x), (tag y); simpl; rewrite ?Z.add_0_r; reflexivity.
Qed.

(** The ids of the code are the numbers 1, 2, ... of the maximal runs. *)
Lemma run_ids_runs (l : list A) :
  run_ids (map tag l) = label_runs 1 (runs tag l).
Proof.
  destruct l as [|x l]; [reflexivity|].
  simpl map. rewrite run_ids_cons. apply ids_after_runs.
Qed.

End Runs.

Lemma label_runs_ge {A : Type} (gs : list (list A)) (n : Z) :
  Forall (fun k => n <= k) (label_runs n gs).
Proof.
  revert n. induction gs as [|g gs IH]; intros n; [constructor|].
  simpl. apply Forall_app. split.
  - apply Forall_forall. intros k Hk. apply repeat_spec in Hk. lia.
  - eapply Forall_impl; [|apply IH]. simpl. intros; lia.
Qed.

Lemma nodup_repeat_app (n : Z) (k : nat) (rest : list Z) :
  ~ In n rest ->
  nodup Z.eq_dec (repeat n (S k) ++ rest) = n :: nodup Z.eq_dec rest.
Proof.
  intros Hn. induction k as [|k IH].
  - simpl. destruct (in_dec Z.eq_dec n rest); [contradiction|reflexivity].
  - change (repeat n (S (S k)) ++ rest) with (n :: (repeat n (S k) ++ rest)).
    cbn [nodup].
    destruct (in_dec Z.eq_dec n (repeat n (S k) ++ rest)) as [_|Hn'].
    + exact IH.
    + exfalso. apply Hn'. left. reflexivity.
Qed.

Lemma label_runs_distinct {A : Type} (gs : list (list A)) (n : Z) :
  Forall (fun g => g <> []) gs ->
  length (nodup Z.eq_dec (label_runs n gs)) = length gs.
Proof.
  revert n. induction gs as [|g gs IH]; intros n Hne; [reflexivity|].
  inversion Hne as [|? ? Hg Hgs]; subst.
  destruct g as [|x g]; [contradiction|].
  change (label_runs n ((x :: g) :: gs))
    with (repeat n (S (length g)) ++ label_runs (n + 1) gs).
  rewrite nodup_repeat_app.
  - simpl. now rewrite IH.
  - intros Hin.
    pose proof (label_runs_ge gs (n + 1)) as Hge.
    rewrite Forall_forall in Hge. apply Hge in Hin. lia.
Qed.

Lemma ids_after_step (bs : list bool) (acc : Z) (prev : bool) (i : nat)
    (t1 t2 : bool) (a b : Z) :
  nth_error (prev :: bs) i = Some t1 ->
  nth_error (prev :: bs) (S i) = Some t2 ->
  nth_error (acc :: ids_after acc prev bs) i = Some a ->
  nth_error (acc :: ids_after acc prev bs) (S i) = Some b ->
  b = a + (if eqb t1 t2 then 0 else 1).
Proof.
  revert acc prev i. induction bs as [|x bs IH]; intros acc prev i H1 H2 H3 H4.
  - destruct i; simpl in H2; [discriminate|]. destruct i; discriminate.
  - destruct i as [|i].
    + simpl in *. inversion H1; inversion H2; inversion H3; inversion H4; subst.
      destruct t1, t2; reflexivity.
    + simpl in H1, H3.
      change (nth_error (prev :: x :: bs) (S (S i))) with (nth_error (x :: bs) (S i)) in H2.
      change (nth_error (acc :: ids_after acc prev (x :: bs)) (S (S i)))
        with (nth_error (ids_after acc prev (x :: bs)) (S i)) in H4.
      cbn [ids_after] in H3, H4.
      eapply IH; eassumption.
Qed.

Lemma run_ids_segmented (tag : Row -> bool) (df : DataFrame) :
  segmented tag (run_ids (map tag df)) df.
Proof.
  split; [apply run_ids_runs|]. split.
  - intros i r1 r2 a b H1 H2 H3 H4.
    destruct df as [|x df]; [destruct i; discriminate|].
    simpl map in H3, H4. rewrite run_ids_cons in H3, H4.
    apply (ids_after_step (map tag df) 1 (tag x) i (tag r1) (tag r2) a b); try assumption.
    + change (tag x :: map tag df) with (map tag (x :: df)).
      now rewrite nth_error_map, H1.
    + change (tag x :: map tag df) with (map tag (x :: df)).
      now rewrite nth_error_map, H2.
  - rewrite run_ids_runs. apply label_runs_distinct, runs_nonempty.
Qed.

(** C2: for the idle tag and for the low-speed tag, the run ids are
    constant within each maximal contiguous same-tag group, change (by one)
    exactly where the tag changes, and the number of distinct ids is the
    number of maximal groups. *)
Theorem segmenter_run_ids (mc_min_speed_req : Q) (df : DataFrame) :
  segmented idle (idle_group df) df /\
  segmented (is_low_speed mc_min_speed_req) (low_speed_group mc_min_speed_req df) df.
Proof.
  split; apply run_ids_segmented.
Qed.

(** ** Grouping *)

Lemma insert_key_In (k x : Z) (ks : list Z) :
  In x (insert_key k ks) <-> x = k \/ In x ks.
Proof.
  induction ks as [|k' ks IH]; simpl.
  - intuition.
  - destruct (k <? k') eqn:E1; [simpl; intuition|].
    destruct (k =? k') eqn:E2.
    + apply Z.eqb_eq in E2. subst. simpl. intuition.
    + simpl. rewrite IH. intuition.
Qed.

Lemma sorted_keys_In (x : Z) (ks : list Z) : In x (sorted_keys ks) <-> In x ks.
Proof.
  induction ks as [|k ks IH]; simpl; [tauto|].
  rewrite insert_key_In, IH. intuition.
Qed.

Lemma groupby_In {A : Type} (key : A -> Z) (rows : list A) (k : Z) (g : list A) :
  In (k, g) (groupby key rows) ->
  g = filter (fun r => key r =? k) rows /\ exists r, In r rows /\ key r = k.
Proof.
  unfold groupby. rewrite in_map_iff. intros (k' & E & Hin).
  inversion E; subst. split; [reflexivity|].
  apply sorted_keys_In, in_map_iff in Hin. destruct Hin as (r & Hr & Hin). eauto.
Qed.

Lemma groupby_nonempty {A : Type} (key : A -> Z) (rows : list A) (k : Z) (g : list A) :
  In (k, g) (groupby key rows) -> g <> [].
Proof.
  intros H. apply groupby_In in H. destruct H as (-> & r & Hin & Hk).
  intros E.
  assert (Hr : In r (filter (fun r0 => key r0 =? k) rows)).
  { apply filter_In. split; [assumption|]. now apply Z.eqb_eq. }
  rewrite E in Hr. exact Hr.
Qed.


(** [mapM] succeeds when every element does, and relates its results to the
    elements one by one. *)
Lemma mapM_Forall2 {A B : Type} (f : A -> outcome B) (R : A -> B -> Prop)
    (xs : list A) :
  (forall x, In x xs -> exists y, f x = Value y /\ R x y) ->
  exists ys, mapM f xs = Value ys /\ Forall2 R xs ys.
Proof.
  induction xs as [|x xs IH]; intros H.
  - exists []. split; [reflexivity|constructor].
  - destruct (H x (or_introl eq_refl)) as (y & Ey & Ry).
    destruct IH as (ys & Eys & Rys); [intros; apply H; now right|].
    exists (y :: ys). simpl. rewrite Ey, Eys. split; [reflexivity|].
    constructor; assumption.
Qed.

(** Grouping a frame that is a sequence of blocks, each of one key, with the
    keys increasing from block to block, gives back the blocks. *)
Section Blocks.

Context {A : Type}.

Lemma insert_key_lt (k : Z) (ks : list Z) :
  Forall (fun k' => k < k') ks -> insert_key k ks = k :: ks.
Proof.
  intros H. destruct ks as [|k' ks]; [reflexivity|].
  inversion H; subst. simpl.
  assert (E : (k <? k') = true) by now apply Z.ltb_lt.
  now rewrite E.
Qed.

Lemma insert_key_same (k : Z) (ks : list Z) :
  insert_key k (k :: ks) = k :: ks.
Proof. simpl. now rewrite Z.ltb_irrefl, Z.eqb_refl. Qed.

Lemma insert_key_repeat (k : Z) (m : nat) (ks : list Z) :
  Forall (fun k' => k < k') ks ->
  fold_right insert_key ks (repeat k (S m)) = k :: ks.
Proof.
  intros H. induction m as [|m IH].
  - simpl. now apply insert_key_lt.
  - change (repeat k (S (S m))) with (k :: repeat k (S m)).
    simpl fold_right. simpl in IH. rewrite IH. apply insert_key_same.
Qed.

Lemma map_fst_with_id (b : Z * list A) :
  map fst (with_id b) = repeat (fst b) (length (snd b)).
Proof.
  unfold with_id. induction (snd b) as [|x g IH]; [reflexivity|].
  simpl. now rewrite IH.
Qed.

Lemma map_snd_with_id (b : Z * list A) : map snd (with_id b) = snd b.
Proof.
  unfold with_id. induction (snd b) as [|x g IH]; [reflexivity|].
  simpl. now rewrite IH.
Qed.

Lemma sorted_keys_blocks (bs : list (Z * list A)) :
  ascending bs -> Forall (fun b => snd b <> []) bs ->
  sorted_keys (map fst (flat_map with_id bs)) = map fst bs.
Proof.
  induction bs as [|b bs IH]; intros Hasc Hne; [reflexivity|].
  destruct Hasc as [Hlt Hasc]. inversion Hne as [|? ? Hb Hbs]; subst.
  simpl flat_map. rewrite map_app, map_fst_with_id.
  unfold sorted_keys. rewrite fold_right_app.
  fold (sorted_keys (map fst (flat_map with_id bs))).
  rewrite IH by assumption.
  destruct (snd b) as [|x g]; [contradiction|].
  simpl length. rewrite insert_key_repeat; [reflexivity|].
  apply Forall_map. exact Hlt.
Qed.

Lemma filter_with_id_same (b : Z * list A) :
  filter (fun r => fst r =? fst b) (with_id b) = with_id b.
Proof.
  unfold with_id. induction (snd b) as [|x g IH]; [reflexivity|].
  simpl. now rewrite Z.eqb_refl, IH.
Qed.

Lemma filter_with_id_other (k : Z) (b : Z * list A) :
  fst b <> k -> filter (fun r => fst r =? k) (with_id b) = [].
Proof.
  intros Hk. unfold with_id. induction (snd b) as [|x g IH]; [reflexivity|].
  simpl. apply Z.eqb_neq in Hk. now rewrite Hk.
Qed.

Lemma filter_blocks_other (k : Z) (bs : list (Z * list A)) :
  Forall (fun b => fst b <> k) bs ->
  filter (fun r => fst r =? k) (flat_map with_id bs) = [].
Proof.
  induction 1 as [|b bs Hb _ IH]; [reflexivity|].
  simpl. now rewrite filter_app, filter_with_id_other, IH.
Qed.

Lemma groups_blocks (bs : list (Z * list A)) :
  ascending bs ->
  map (fun k => (k, filter (fun r => fst r =? k) (flat_map with_id bs)))
      (map fst bs)
  = map (fun b => (fst b, with_id b)) bs.
Proof.
  induction bs as [|b bs IH]; intros Hasc; [reflexivity|].
  destruct Hasc as [Hlt Hasc].
  simpl. f_equal.
  - f_equal. rewrite filter_app, filter_with_id_same, filter_blocks_other.
    + apply app_nil_r.
    + eapply Forall_impl; [|exact Hlt]. simpl. intros; lia.
  - rewrite <- IH by assumption.
    rewrite !map_map. apply map_ext_in. intros b' Hb'.
    f_equal. rewrite filter_app, filter_with_id_other; [reflexivity|].
    rewrite Forall_forall in Hlt. specialize (Hlt b' Hb'). lia.
Qed.

Lemma groupby_blocks (bs : list (Z * list A)) :
  ascending bs -> Forall (fun b => snd b <> []) bs ->
  groupby fst (flat_map with_id bs) = map (fun b => (fst b, with_id b)) bs.
Proof.
  intros Hasc Hne. unfold groupby.
  rewrite sorted_keys_blocks by assumption.
  now apply groups_blocks.
Qed.

End Blocks.

(** ** The groups of the tagged frame are the maximal true-runs *)

Section TaggedGroups.

Context {A : Type}.
Variable tag : A -> bool.

Lemma combine_repeat (n : Z) (g : list A) (ks : list Z) (rest : list A) :
  combine (repeat n (length g) ++ ks) (g ++ rest)
  = map (pair n) g ++ combine ks rest.
Proof.
  induction g as [|x g IH]; [reflexivity|].
  simpl. now rewrite IH.
Qed.

Lemma combine_label_runs (gs : list (list A)) (n : Z) :
  combine (label_runs n gs) (concat gs) = flat_map with_id (number_runs n gs).
Proof.
  revert n. induction gs as [|g gs IH]; intros n; [reflexivity|].
  simpl. now rewrite combine_repeat, IH.
Qed.

Lemma filter_with_id (b : Z * list A) :
  (forall a, In a (snd b) -> tag a = run_tag tag (snd b)) ->
  filter (fun p => tag (snd p)) (with_id b)
  = if tagged_block tag b then with_id b else [].
Proof.
  unfold tagged_block, with_id. intros H.
  destruct (run_tag tag (snd b)).
  - induction (snd b) as [|x g IH]; [reflexivity|].
    simpl. rewrite (H x (or_introl eq_refl)). f_equal.
    apply IH. intros a Ha. apply H. now right.
  - induction (snd b) as [|x g IH]; [reflexivity|].
    simpl. rewrite (H x (or_introl eq_refl)).
    apply IH. intros a Ha. apply H. now right.
Qed.

Lemma filter_tagged_blocks (bs : list (Z * list A)) :
  Forall (fun b => forall a, In a (snd b) -> tag a = run_tag tag (snd b)) bs ->
  filter (fun p => tag (snd p)) (flat_map with_id bs)
  = flat_map with_id (filter (tagged_block tag) bs).
Proof.
  induction 1 as [|b bs Hb _ IH]; [reflexivity|].
  simpl. rewrite filter_app, filter_with_id, IH by assumption.
  destruct (tagged_block tag b); reflexivity.
Qed.

Lemma number_runs_ge (gs : list (list A)) (n : Z) :
  Forall (fun b => n <= fst b) (number_runs n gs).
Proof.
  revert n. induction gs as [|g gs IH]; intros n; constructor.
  - simpl. lia.
  - eapply Forall_impl; [|apply IH]. simpl. intros; lia.
Qed.

Lemma number_runs_ascending (gs : list (list A)) (n : Z) :
  ascending (number_runs n gs).
Proof.
  revert n. induction gs as [|g gs IH]; intros n; [exact I|].
  split; [|apply IH].
  eapply Forall_impl; [|apply number_runs_ge]. simpl. intros; lia.
Qed.

Lemma ascending_filter {B : Type} (P : Z * B -> bool) (bs : list (Z * B)) :
  ascending bs -> ascending (filter P bs).
Proof.
  induction bs as [|b bs IH]; intros Hasc; [exact I|].
  destruct Hasc as [Hlt Hasc]. simpl.
  destruct (P b); [|now apply IH].
  split; [|now apply IH].
  apply Forall_forall. intros b' Hb'. apply filter_In in Hb'.
  rewrite Forall_forall in Hlt. apply Hlt. tauto.
Qed.

Lemma number_runs_Forall (P : list A -> Prop) (gs : list (list A)) (n : Z) :
  Forall P gs -> Forall (fun b => P (snd b)) (number_runs n gs).
Proof.
  intros H. revert n. induction H as [|g gs Hg _ IH]; intros n; constructor; auto.
Qed.

Lemma map_snd_number_runs (gs : list (list A)) (n : Z) :
  map snd (filter (tagged_block tag) (number_runs n gs)) = filter (run_tag tag) gs.
Proof.
  revert n. induction gs as [|g gs IH]; intros n; [reflexivity|].
  simpl. unfold tagged_block at 1. simpl.
  destruct (run_tag tag g); simpl; now rewrite IH.
Qed.

Lemma Forall_filter {B : Type} (P : B -> Prop) (f : B -> bool) (l : list B) :
  Forall P l -> Forall P (filter f l).
Proof.
  intros H. apply Forall_forall. intros x Hx. apply filter_In in Hx.
  rewrite Forall_forall in H. apply H. tauto.
Qed.

(** The groups by run id of the samples that carry the tag are the maximal
    runs of tagged samples, in frame order. *)
Lemma tagged_groups (l : list A) :
  groupby fst (filter (fun p => tag (snd p)) (combine (run_ids (map tag l)) l))
  = map (fun b => (fst b, with_id b))
        (filter (tagged_block tag) (number_runs 1 (runs tag l))).
Proof.
  rewrite run_ids_runs.
  rewrite <- (runs_concat tag l) at 2.
  rewrite combine_label_runs, filter_tagged_blocks.
  - apply groupby_blocks.
    + apply ascending_filter, number_runs_ascending.
    + apply Forall_filter.
      apply (number_runs_Forall (fun g => g <> [])), runs_nonempty.
  - apply (number_runs_Forall
             (fun g => forall a, In a g -> tag a = run_tag tag g)),
      runs_constant.
Qed.

End TaggedGroups.

(** ** Event aggregator *)

Lemma last_cons_default {A : Type} (x y : A) (xs : list A) :
  last (y :: xs) x = last xs y.
Proof.
  revert x y. induction xs as [|z xs IH]; intros x y; [reflexivity|].
  change (last (y :: z :: xs) x) with (last (z :: xs) x).
  rewrite IH. symmetry. apply IH.
Qed.

Lemma iloc_last_cons {A : Type} (x : A) (xs : list A) :
  iloc_last (x :: xs) = Value (last xs x).
Proof.
  revert x. induction xs as [|y xs IH]; intros x; [reflexivity|].
  change (iloc_last (x :: y :: xs)) with (iloc_last (y :: xs)).
  rewrite IH. now rewrite last_cons_default.
Qed.

Lemma last_map_default {A B : Type} (f : A -> B) (xs : list A) (x : A) :
  last (map f xs) (f x) = f (last xs x).
Proof.
  revert x. induction xs as [|y xs IH]; intros x; [reflexivity|].
  simpl. destruct xs as [|z xs]; [reflexivity|].
  specialize (IH x). simpl in IH. exact IH.
Qed.

Lemma last_In {A : Type} (xs : list A) (x : A) : In (last xs x) (x :: xs).
Proof.
  revert x. induction xs as [|y xs IH]; intros x; [now left|].
  rewrite last_cons_default. right. apply IH.
Qed.

Lemma Forall2_map_left {A B C : Type} (f : A -> B) (R : B -> C -> Prop)
    (xs : list A) (ys : list C) :
  Forall2 (fun x y => R (f x) y) xs ys -> Forall2 R (map f xs) ys.
Proof. induction 1; simpl; constructor; assumption. Qed.

Lemma Forall2_map_left_inv {A B C : Type} (f : A -> B) (R : B -> C -> Prop)
    (xs : list A) (ys : list C) :
  Forall2 R (map f xs) ys -> Forall2 (fun x y => R (f x) y) xs ys.
Proof.
  revert ys. induction xs as [|x xs IH]; intros ys H; inversion H; subst.
  - constructor.
  - constructor; [assumption|]. now apply IH.
Qed.

Lemma idle_duration_cons (first : Row) (rest : list Row) :
  idle_duration (map timestamp (first :: rest))
  = Value (elapsed_minutes (timestamp first) (timestamp (last rest first))).
Proof.
  unfold idle_duration. simpl map. rewrite iloc_last_cons, last_map_default.
  reflexivity.
Qed.

Lemma low_speed_duration_cons `{ti : Ties} (first : Row) (rest : list Row) :
  low_speed_duration (map timestamp (first :: rest))
  = Value (round (elapsed_minutes (timestamp first) (timestamp (last rest first))) 4).
Proof.
  unfold low_speed_duration. simpl map. rewrite iloc_last_cons, last_map_default.
  reflexivity.
Qed.

Lemma agg_idle_event_block (b : Z * list Row) :
  snd b <> [] ->
  exists ev, agg_idle_event (fst b, with_id b) = Value ev /\
             idle_event_of_run (snd b) ev.
Proof.
  intros Hne. unfold agg_idle_event. cbn [fst snd].
  rewrite map_snd_with_id.
  destruct (snd b) as [|first rest] eqn:E; [contradiction|].
  rewrite idle_duration_cons.
  cbn [map agg_first agg_last mean bind].
  eexists. split; [reflexivity|].
  exists first, rest. cbn [ie_start ie_end ie_duration].
  rewrite last_map_default. repeat split.
Qed.

Lemma agg_min_cons (x : Q) (xs : list Q) :
  agg_min (x :: xs) = Value (fold_left Qmin xs x).
Proof. reflexivity. Qed.

Lemma agg_max_cons (x : Q) (xs : list Q) :
  agg_max (x :: xs) = Value (fold_left Qmax xs x).
Proof. reflexivity. Qed.

Lemma agg_low_speed_event_block `{ti : Ties} (b : Z * list Row) :
  snd b <> [] ->
  exists ev, agg_low_speed_event (fst b, with_id b) = Value ev /\
             low_speed_event_of_run (snd b) ev.
Proof.
  intros Hne. unfold agg_low_speed_event. cbn [fst snd].
  rewrite map_snd_with_id.
  destruct (snd b) as [|first rest] eqn:E; [contradiction|].
  rewrite low_speed_duration_cons.
  cbn [map agg_first agg_last mean bind].
  rewrite agg_min_cons, agg_max_cons. cbn [bind].
  eexists. split; [reflexivity|].
  exists first, rest. cbn [ls_start ls_end ls_duration].
  rewrite last_map_default. repeat split.
Qed.

Lemma true_blocks_nonempty {A : Type} (tag : A -> bool) (l : list A) (b : Z * list A) :
  In b (filter (tagged_block tag) (number_runs 1 (runs tag l))) -> snd b <> [].
Proof.
  intros Hin. apply filter_In in Hin. destruct Hin as [_ Ht].
  unfold tagged_block, run_tag in Ht. destruct (snd b); [discriminate|discriminate].
Qed.

(** The idle-events table has one row per maximal idle run, in frame order,
    and each row summarises its run. *)
Lemma idle_events_runs (df : DataFrame) :
  exists evs, idle_events df = Value evs /\
              Forall2 idle_event_of_run (true_runs idle df) evs.
Proof.
  unfold idle_events, idle_group. rewrite tagged_groups.
  destruct (mapM_Forall2 agg_idle_event
              (fun g ev => idle_event_of_run (map snd (snd g)) ev)
              (map (fun b => (fst b, with_id b))
                   (filter (tagged_block idle) (number_runs 1 (runs idle df)))))
    as (evs & E & HR).
  - intros g Hg. apply in_map_iff in Hg. destruct Hg as (b & <- & Hb).
    cbn [snd]. rewrite map_snd_with_id.
    apply agg_idle_event_block. eapply true_blocks_nonempty; eassumption.
  - exists evs. split; [assumption|].
    unfold true_runs. rewrite <- (map_snd_number_runs idle (runs idle df) 1).
    apply Forall2_map_left. apply Forall2_map_left_inv in HR.
    eapply Forall2_impl; [|exact HR].
    intros b ev. cbn [snd]. now rewrite map_snd_with_id.
Qed.

Lemma low_speed_events_runs `{ti : Ties} (req : Q) (df : DataFrame) :
  exists evs, low_speed_events_all req df = Value evs /\
              Forall2 low_speed_event_of_run (true_runs (is_low_speed req) df) evs.
Proof.
  unfold low_speed_events_all, low_speed_group. rewrite tagged_groups.
  destruct (mapM_Forall2 agg_low_speed_event
              (fun g ev => low_speed_event_of_run (map snd (snd g)) ev)
              (map (fun b => (fst b, with_id b))
                   (filter (tagged_block (is_low_speed req))
                           (number_runs 1 (runs (is_low_speed req) df)))))
    as (evs & E & HR).
  - intros g Hg. apply in_map_iff in Hg. destruct Hg as (b & <- & Hb).
    cbn [snd]. rewrite map_snd_with_id.
    apply agg_low_speed_event_block. eapply true_blocks_nonempty; eassumption.
  - exists evs. split; [assumption|].
    unfold true_runs.
    rewrite <- (map_snd_number_runs (is_low_speed req)
                  (runs (is_low_speed req) df) 1).
    apply Forall2_map_left. apply Forall2_map_left_inv in HR.
    eapply Forall2_impl; [|exact HR].
    intros b ev. cbn [snd]. now rewrite map_snd_with_id.
Qed.

Lemma elapsed_minutes_same (t : Z) : (elapsed_minutes t t == 0)%Q.
Proof. unfold elapsed_minutes, total_seconds. rewrite Z.sub_diag. reflexivity. Qed.

(** The minutes the code computes are the minutes between the instants. *)
Lemma elapsed_minutes_minutes (a b : Z) :
  (elapsed_minutes a b == minutes_from_to a b)%Q.
Proof.
  unfold elapsed_minutes, total_seconds, minutes_from_to, ns_per_second.
  generalize (inject_Z (b - a)). intros q.
  change (inject_Z 60000000000) with (inject_Z 1000000000 * 60)%Q.
  field.
Qed.

Lemma round_with_comp (tie_up : Q -> nat -> bool) (x y : Q) (n : nat) :
  (x == y)%Q -> (round_with tie_up x n == round_with tie_up y n)%Q.
Proof.
  intros E. unfold round_with. rewrite (Qred_complete x y E).
  rewrite (rint_comp _ (x * pow10 n) (y * pow10 n)); [reflexivity|].
  now rewrite E.
Qed.

Lemma round_elapsed_same `{ti : Ties} (t : Z) :
  (round (elapsed_minutes t t) 4 == 0)%Q.
Proof.
  unfold round. rewrite (round_with_comp _ _ 0 4 (elapsed_minutes_same t)).
  exact (round_with_inject_Z _ 0 4).
Qed.

Lemma summarises_single (shown : Q -> Q) (g : list Row) (s e : Z) (d : Q) :
  summarises shown g s e d -> length g = 1%nat ->
  exists t, s = t /\ e = t /\ d = shown (elapsed_minutes t t).
Proof.
  intros (first & rest & -> & -> & -> & ->) Hlen.
  destruct rest as [|x rest]; [|discriminate].
  exists (timestamp first). repeat split.
Qed.

Lemma summarises_own_span (shown : Q -> Q) (g : list Row) (s e : Z) (d : Q) :
  summarises shown g s e d -> d = shown (elapsed_minutes s e).
Proof. intros (first & rest & _ & -> & -> & ->). reflexivity. Qed.

Lemma Forall2_Forall_right {A B : Type} (R : A -> B -> Prop) (P : B -> Prop)
    (xs : list A) (ys : list B) :
  (forall x y, R x y -> P y) -> Forall2 R xs ys -> Forall P ys.
Proof. intros H HR. induction HR; constructor; eauto. Qed.

(** From the events as the code builds them to the events as the statements
    describe them. *)
Lemma idle_event_of_run_for (g : list Row) (ev : IdleEvent) :
  idle_event_of_run g ev ->
  idle_event_for g ev /\ (length g = 1%nat -> (ie_duration ev == 0)%Q).
Proof.
  intros Hev. split.
  - destruct Hev as (first & rest & -> & Hs & He & Hd).
    exists first, rest. repeat split; try assumption.
    rewrite Hd. apply elapsed_minutes_minutes.
  - intros Hlen.
    destruct (summarises_single _ _ _ _ _ Hev Hlen) as (t & _ & _ & ->).
    apply elapsed_minutes_same.
Qed.

Lemma low_speed_event_of_run_for `{ti : Ties} (g : list Row) (ev : LowSpeedEvent) :
  low_speed_event_of_run g ev ->
  low_speed_event_for g ev /\ (length g = 1%nat -> (ls_duration ev == 0)%Q).
Proof.
  intros Hev. split.
  - destruct Hev as (first & rest & -> & Hs & He & Hd).
    exists first, rest. repeat split; try assumption.
    rewrite Hd. unfold round.
    eapply rounded_to_proper;
      [apply elapsed_minutes_minutes|reflexivity|apply round_with_rounded_to].
  - intros Hlen.
    destruct (summarises_single _ _ _ _ _ Hev Hlen) as (t & _ & _ & ->).
    apply round_elapsed_same.
Qed.

Lemma idle_events_for (df : DataFrame) :
  exists evs,
    idle_events df = Value evs /\
    Forall2 (fun g ev => idle_event_for g ev /\
                         (length g = 1%nat -> (ie_duration ev == 0)%Q))
            (true_runs idle df) evs.
Proof.
  destruct (idle_events_runs df) as (evs & E & HR).
  exists evs. split; [assumption|].
  eapply Forall2_impl; [|exact HR]. apply idle_event_of_run_for.
Qed.

Lemma low_speed_events_for `{ti : Ties} (req : Q) (df : DataFrame) :
  exists evs,
    low_speed_events_all req df = Value evs /\
    Forall2 (fun g ev => low_speed_event_for g ev /\
                         (length g = 1%nat -> (ls_duration ev == 0)%Q))
            (true_runs (is_low_speed req) df) evs.
Proof.
  destruct (low_speed_events_runs req df) as (evs & E & HR).
  exists evs. split; [assumption|].
  eapply Forall2_impl; [|exact HR]. apply low_speed_event_of_run_for.
Qed.



Lemma idle_duration_value (x : list Z) (d : Q) :
  idle_duration x = Value d ->
  exists a b, iloc_first x = Value a /\ iloc_last x = Value b /\
              d = elapsed_minutes a b.
Proof.
  unfold idle_duration. intros H.
  destruct (iloc_last x) as [b| | |]; try discriminate.
  destruct (iloc_first x) as [a| | |]; try discriminate.
  simpl in H. inversion H. eauto.
Qed.

(** C10: for every maximal low-speed run the table has an event whose
    duration is the minutes from the run's first to its last sample rounded
    to 4 decimal places; for every maximal idle run the table has an event
    whose duration is those minutes themselves; and on any timestamps the
    low-speed duration is the idle duration rounded to 4 places. *)
Theorem low_speed_duration_rounded `{ti : Ties} (mc_min_speed_req : Q)
    (df : DataFrame) :
  (exists evs,
      low_speed_events_all mc_min_speed_req df = Value evs /\
      Forall2 (fun g ev =>
                 low_speed_event_for g ev /\
                 rounded_to 4 (minutes_from_to (ls_start ev) (ls_end ev))
                            (ls_duration ev))
              (true_runs (is_low_speed mc_min_speed_req) df) evs) /\
  (exists evs,
      idle_events df = Value evs /\
      Forall2 (fun g ev =>
                 idle_event_for g ev /\
                 (ie_duration ev == minutes_from_to (ie_start ev) (ie_end ev))%Q)
              (true_runs idle df) evs) /\
  (forall (x : list Z) (d : Q),
      idle_duration x = Value d ->
      exists d', low_speed_duration x = Value d' /\ rounded_to 4 d d').
Proof.
  split; [|split].
  - destruct (low_speed_events_for mc_min_speed_req df) as (evs & E & HR).
    exists evs. split; [assumption|].
    eapply Forall2_impl; [|exact HR].
    intros g ev [Hev _]. split; [assumption|].
    destruct Hev as (first & rest & _ & -> & -> & Hd). exact Hd.
  - destruct (idle_events_for df) as (evs & E & HR).
    exists evs. split; [assumption|].
    eapply Forall2_impl; [|exact HR].
    intros g ev [Hev _]. split; [assumption|].
    destruct Hev as (first & rest & _ & -> & -> & Hd). exact Hd.
  - intros x d Hd.
    destruct (idle_duration_value x d Hd) as (a & b & Ea & Eb & ->).
    unfold low_speed_duration. rewrite Eb, Ea. simpl.
    eexists. split; [reflexivity|]. apply round_with_rounded_to.
Qed.

(** ** The maximal true-runs are the tagged samples *)

Lemma filter_all {A : Type} (f : A -> bool) (l : list A) :
  (forall x, In x l -> f x = true) -> filter f l = l.
Proof.
  induction l as [|x l IH]; intros H; [reflexivity|].
  simpl. rewrite (H x (or_introl eq_refl)). f_equal.
  apply IH. intros y Hy. apply H. now right.
Qed.

(** Every numbered true-run is a non-empty stretch of tagged samples of the
    frame, and together, in order, they are the tagged samples. *)
Lemma filter_constant_run {A : Type} (tag : A -> bool) (g : list A) :
  (forall a, In a g -> tag a = run_tag tag g) ->
  filter tag g = if run_tag tag g then g else [].
Proof.
  intros H. destruct (run_tag tag g).
  - apply filter_all. exact H.
  - induction g as [|x g IH]; [reflexivity|].
    simpl. rewrite (H x (or_introl eq_refl)). apply IH.
    intros a Ha. apply H. now right.
Qed.

Lemma filter_concat_runs {A : Type} (tag : A -> bool) (gs : list (list A)) :
  Forall (fun g => forall a, In a g -> tag a = run_tag tag g) gs ->
  filter tag (concat gs) = concat (filter (run_tag tag) gs).
Proof.
  induction 1 as [|g gs Hg _ IH]; [reflexivity|].
  simpl. rewrite filter_app, IH, (filter_constant_run tag g Hg).
  destruct (run_tag tag g); reflexivity.
Qed.

Lemma true_runs_concat {A : Type} (tag : A -> bool) (l : list A) :
  concat (true_runs tag l) = filter tag l.
Proof.
  unfold true_runs. rewrite <- filter_concat_runs by apply runs_constant.
  now rewrite runs_concat.
Qed.


Lemma true_runs_tagged {A : Type} (tag : A -> bool) (l : list A) (g : list A) :
  In g (true_runs tag l) ->
  g <> [] /\ forall a, In a g -> tag a = true /\ In a l.
Proof.
  intros Hg. unfold true_runs in Hg. apply filter_In in Hg.
  destruct Hg as [Hin Ht].
  pose proof (runs_constant tag l) as Hc. rewrite Forall_forall in Hc.
  split.
  - destruct g; [discriminate|discriminate].
  - intros a Ha. split.
    + rewrite (Hc g Hin a Ha). exact Ht.
    + rewrite <- (runs_concat tag l). apply in_concat. eauto.
Qed.

Lemma concat_nil_nonempty {A : Type} (gs : list (list A)) :
  Forall (fun g => g <> []) gs -> concat gs = [] -> gs = [].
Proof.
  intros H E. destruct gs as [|g gs]; [reflexivity|].
  inversion H; subst. simpl in E. apply app_eq_nil in E. tauto.
Qed.

Lemma length_concat_nonempty {A : Type} (gs : list (list A)) :
  Forall (fun g => g <> []) gs -> (length gs <= length (concat gs))%nat.
Proof.
  induction 1 as [|g gs Hg _ IH]; [apply le_n|].
  simpl. rewrite length_app. destruct g; [contradiction|]. simpl. lia.
Qed.

Lemma true_runs_nonempty {A : Type} (tag : A -> bool) (l : list A) :
  Forall (fun g => g <> []) (true_runs tag l).
Proof.
  apply Forall_forall. intros g Hg. now apply (true_runs_tagged tag l g).
Qed.

Lemma events_none_iff {E : Type} (tag : Row -> bool) (df : DataFrame)
    (R : list Row -> E -> Prop) (table : outcome (list E)) :
  (exists evs, table = Value evs /\ Forall2 R (true_runs tag df) evs) ->
  (table = Value [] <-> filter tag df = []) /\
  exists evs, table = Value evs /\ (length evs <= length (filter tag df))%nat.
Proof.
  intros (evs & -> & HR). split.
  - split.
    + intros H. inversion H; subst. inversion HR as [E0|]; subst.
      rewrite <- true_runs_concat, <- E0. reflexivity.
    + intros H. rewrite <- true_runs_concat in H.
      apply concat_nil_nonempty in H; [|apply true_runs_nonempty].
      rewrite H in HR. inversion HR. reflexivity.
  - exists evs. split; [reflexivity|].
    rewrite <- (Forall2_length HR), <- true_runs_concat.
    apply length_concat_nonempty, true_runs_nonempty.
Qed.

(** ** Qualifying idle events and the window filter *)


Lemma long_enough_iff (idle_time : Q) (e : IdleEvent) :
  long_enough idle_time e = true <-> (idle_time <= ie_duration e)%Q.
Proof. apply Qle_bool_iff. Qed.

(** A frame with an idle sample has idle events, described run by run. *)
Lemma idle_events_some (df : DataFrame) :
  filter idle df <> [] ->
  exists ev evs,
    idle_events df = Value (ev :: evs) /\
    Forall2 idle_event_for (true_runs idle df) (ev :: evs).
Proof.
  intros Hidle. destruct (idle_events_for df) as (evs & E & HR).
  assert (HR' : Forall2 idle_event_for (true_runs idle df) evs).
  { eapply Forall2_impl; [|exact HR]. now intros g ev [Hev _]. }
  destruct evs as [|ev evs].
  - exfalso. apply Hidle. rewrite <- true_runs_concat.
    inversion HR' as [E0|]. reflexivity.
  - exists ev, evs. split; assumption.
Qed.

(** Without an idle sample the table is empty. *)
Lemma idle_events_none (df : DataFrame) :
  filter idle df = [] -> idle_events df = Value [].
Proof.
  intros Hidle.
  now apply (events_none_iff idle df idle_event_of_run (idle_events df)
               (idle_events_runs df)).
Qed.

Lemma duration_at_least_cons (idle_time : Q) (ev : IdleEvent)
    (evs : list IdleEvent) :
  duration_at_least idle_time (ev :: evs)
  = Value (filter (fun e => Qle_bool idle_time (ie_duration e)) (ev :: evs)).
Proof. reflexivity. Qed.

Lemma long_idles_display (idle_time : Q) (df : DataFrame) :
  display_idle_events idle_time df = long_idles idle_time df.
Proof. reflexivity. Qed.

Lemma long_idles_some (idle_time : Q) (df : DataFrame) (evs : list IdleEvent) :
  idle_events df = Value evs -> evs <> [] ->
  long_idles idle_time df
  = Value (filter (fun e => Qle_bool idle_time (ie_duration e)) evs).
Proof.
  intros E Hne. unfold long_idles. rewrite E. simpl.
  destruct evs; [contradiction|reflexivity].
Qed.

Lemma long_idles_value (idle_time : Q) (df : DataFrame) (quals : list IdleEvent) :
  long_idles idle_time df = Value quals ->
  exists evs,
    idle_events df = Value evs /\ evs <> [] /\
    quals = filter (fun e => Qle_bool idle_time (ie_duration e)) evs.
Proof.
  unfold long_idles. intros H.
  destruct (idle_events df) as [evs| | |]; try discriminate.
  simpl in H. destruct evs as [|ev evs]; [discriminate|].
  rewrite duration_at_least_cons in H. inversion H.
  exists (ev :: evs). split; [reflexivity|]. split; [discriminate|reflexivity].
Qed.

(** C7: on a frame with an idle sample, the idle events are one per maximal
    idle run; such an event is a qualifying idle event, listed by line 129
    and by line 185 alike and counted by the idle-events KPI, iff its
    duration is at least the idle threshold, the threshold itself included;
    events of strictly smaller duration are left out. *)
Theorem qualifying_idle_events `{dt : Dtypes} `{ti : Ties}
    (mc_min_speed_req idle_time : Q)
    (date_range : list Z) (time_range : Z * Z) (df : DataFrame) :
  filter idle df <> [] ->
  exists evs quals,
    idle_events df = Value evs /\
    Forall2 idle_event_for (true_runs idle df) evs /\
    long_idles idle_time df = Value quals /\
    display_idle_events idle_time df = Value quals /\
    quals = filter (fun e => Qle_bool idle_time (ie_duration e)) evs /\
    (forall e, In e quals <-> In e evs /\ (idle_time <= ie_duration e)%Q) /\
    (forall e, In e evs -> (ie_duration e == idle_time)%Q -> In e quals) /\
    (forall e, In e evs -> (ie_duration e < idle_time)%Q -> ~ In e quals) /\
    kpi_idle_events (run_script mc_min_speed_req idle_time date_range time_range df)
    = Value (length quals).
Proof.
  intros Hidle. destruct (idle_events_some df Hidle) as (ev & evs & E & HR).
  exists (ev :: evs),
         (filter (fun e => Qle_bool idle_time (ie_duration e)) (ev :: evs)).
  assert (Hiff : forall e,
             In e (filter (fun e => Qle_bool idle_time (ie_duration e)) (ev :: evs))
             <-> In e (ev :: evs) /\ (idle_time <= ie_duration e)%Q).
  { intros e. rewrite filter_In, Qle_bool_iff. tauto. }
  assert (Hl : long_idles idle_time df
               = Value (filter (fun e => Qle_bool idle_time (ie_duration e))
                               (ev :: evs))).
  { apply long_idles_some; [assumption|discriminate]. }
  split; [assumption|]. split; [assumption|].
  split; [exact Hl|].
  split; [rewrite long_idles_display; exact Hl|].
  split; [reflexivity|].
  split; [exact Hiff|].
  split; [|split].
  - intros e Hin Heq. apply Hiff. split; [assumption|].
    rewrite Heq. apply Qle_refl.
  - intros e Hin Hlt Hq. apply Hiff in Hq. destruct Hq as [_ Hle].
    exact (Qlt_not_le _ _ Hlt Hle).
  - unfold run_script, kpi_idle_events. rewrite Hl. reflexivity.
Qed.

Lemma qualifying_idle_events_witness :
  filter idle ten_minutes <> [] /\
  exists evs quals,
    idle_events ten_minutes = Value evs /\
    Forall2 idle_event_for (true_runs idle ten_minutes) evs /\
    long_idles 1 ten_minutes = Value quals /\
    display_idle_events 1 ten_minutes = Value quals /\
    quals = filter (fun e => Qle_bool 1 (ie_duration e)) evs /\
    (forall e, In e quals <-> In e evs /\ (1 <= ie_duration e)%Q) /\
    (forall e, In e evs -> (ie_duration e == 1)%Q -> In e quals) /\
    (forall e, In e evs -> (ie_duration e < 1)%Q -> ~ In e quals) /\
    kpi_idle_events
      (run_script (dt := naive_floats) (ti := ties_to_even) 10 1 [0; 0] (0, 23)
         ten_minutes)
    = Value (length quals).
Proof.
  assert (H : filter idle ten_minutes <> []) by discriminate.
  split; [exact H|].
  exact (qualifying_idle_events (dt := naive_floats) (ti := ties_to_even)
           10 1 [0; 0] (0, 23) ten_minutes H).
Defined.



Lemma in_window_iff (lo hi : Z) (e : IdleEvent) :
  in_window lo hi e = true <-> lo <= ie_start e /\ ie_end e <= hi.
Proof. unfold in_window. rewrite andb_true_iff, !Z.leb_le. tauto. Qed.

Lemma filtered_idle_events_eq `{dt : Dtypes} (date_range : list Z)
    (time_range : Z * Z) (idle_time : Q) (df : DataFrame)
    (quals : list IdleEvent) (lo hi : Z) :
  tz_aware = false ->
  display_idle_events idle_time df = Value quals ->
  start_datetime date_range time_range = Value lo ->
  end_datetime date_range time_range = Value hi ->
  filtered_idle_events date_range time_range idle_time df
  = Value (filter (in_window lo hi) quals).
Proof.
  intros Htz Hq Hlo Hhi. unfold filtered_idle_events.
  rewrite Hq, Hlo, Hhi, Htz. simpl. destruct quals; reflexivity.
Qed.







(** ** Headline KPIs *)

Lemma length_le_1 {A : Type} (l : list A) :
  (length l <= 1)%nat -> (1 <? Z.of_nat (length l)) = false.
Proof. intros H. apply Z.ltb_ge. lia. Qed.

Lemma total_minutes_short (df : DataFrame) :
  (length df <= 1)%nat -> total_minutes df = Value 0%Q.
Proof. intros H. unfold total_minutes. now rewrite length_le_1. Qed.

Lemma total_minutes_long (first second : Row) (rest : list Row) :
  total_minutes (first :: second :: rest)
  = Value (elapsed_minutes (timestamp first) (timestamp (last rest second))).
Proof.
  unfold total_minutes.
  assert (E : (1 <? Z.of_nat (length (first :: second :: rest))) = true).
  { apply Z.ltb_lt. simpl length. lia. }
  rewrite E. simpl map at 1. rewrite iloc_last_cons.
  change (map timestamp (second :: rest))
    with (timestamp second :: map timestamp rest).
  rewrite last_cons_default, last_map_default. reflexivity.
Qed.

Lemma total_minutes_total (df : DataFrame) : exists tm, total_minutes df = Value tm.
Proof.
  destruct df as [|first [|second rest]].
  - exists 0%Q. apply total_minutes_short. simpl. lia.
  - exists 0%Q. apply total_minutes_short. simpl. lia.
  - eexists. apply total_minutes_long.
Qed.

Lemma uptime_percent_zero (df : DataFrame) (tm : Q) :
  total_minutes df = Value tm -> (tm == 0)%Q -> uptime_percent df = Value 0%Q.
Proof.
  intros E Hz. unfold uptime_percent. rewrite E. simpl.
  apply truthy_false_iff in Hz. now rewrite Hz.
Qed.

Lemma uptime_percent_nonzero (df : DataFrame) (tm : Q) :
  total_minutes df = Value tm -> ~ (tm == 0)%Q ->
  uptime_percent df = Value (100 * inject_Z (running_minutes df) / tm)%Q.
Proof.
  intros E Hnz. unfold uptime_percent. rewrite E. simpl.
  pose proof Hnz as Ht. apply truthy_true_iff in Ht. rewrite Ht.
  unfold fdiv. destruct (Qeq_bool tm 0) eqn:Eq; [|reflexivity].
  apply Qeq_bool_iff in Eq. contradiction.
Qed.

Lemma avg_speed_no_running (df : DataFrame) :
  filter is_running df = [] -> avg_speed df = Value 0%Q.
Proof. intros H. unfold avg_speed, running_minutes. now rewrite H. Qed.

Lemma avg_speed_total (df : DataFrame) : exists v, avg_speed df = Value v.
Proof.
  unfold avg_speed, running_minutes.
  destruct (filter is_running df) as [|r rs]; simpl; eauto.
Qed.

Lemma total_production_short `{dt : Dtypes} (df : DataFrame) :
  (length df <= 1)%nat -> total_production df = Value 0%Q.
Proof. intros H. unfold total_production. now rewrite length_le_1. Qed.

(** The KPIs of lines 113-117 on a frame of at most one sample. *)
Lemma degenerate_kpis `{dt : Dtypes} (df : DataFrame) :
  (length df <= 1)%nat ->
  total_minutes df = Value 0%Q /\
  total_production df = Value 0%Q /\
  uptime_percent df = Value 0%Q /\
  (filter is_running df = [] -> avg_speed df = Value 0%Q) /\
  (exists v, avg_speed df = Value v).
Proof.
  intros H.
  split; [now apply total_minutes_short|].
  split; [now apply total_production_short|].
  split.
  - apply uptime_percent_zero with 0%Q; [now apply total_minutes_short|reflexivity].
  - split; [apply avg_speed_no_running|apply avg_speed_total].
Qed.

(** Without an idle sample the comparison of line 129 has a column of
    timestamps on its left: it raises. *)
Lemma long_idles_no_idle (idle_time : Q) (df : DataFrame) :
  filter idle df = [] -> long_idles idle_time df = TypeError.
Proof.
  intros H. unfold long_idles. now rewrite (idle_events_none df H).
Qed.

(** C6 (code bug): on the empty frame, and on a frame of one running
    sample, the KPIs of lines 113-117 are 0 or the sample's speed, finite
    all of them, but the idle-events KPI is not computed: line 129 raises a
    TypeError. *)
Theorem degenerate_window_idle_kpi_raises `{dt : Dtypes} `{ti : Ties}
    (mc_min_speed_req idle_time : Q) (date_range : list Z)
    (time_range : Z * Z) :
  let empty := run_script mc_min_speed_req idle_time date_range time_range [] in
  let single := run_script mc_min_speed_req idle_time date_range time_range
                  [mkRow 0 5 7] in
  kpi_uptime empty = Value 0%Q /\
  kpi_avg_speed empty = Value 0%Q /\
  kpi_production empty = Value 0%Q /\
  kpi_idle_events empty = TypeError /\
  long_idles idle_time [] = TypeError /\
  kpi_uptime single = Value 0%Q /\
  (exists v, kpi_avg_speed single = Value v /\ (v == 5)%Q) /\
  kpi_production single = Value 0%Q /\
  kpi_idle_events single = TypeError /\
  long_idles idle_time [mkRow 0 5 7] = TypeError.
Proof.
  cbv zeta. unfold run_script.
  cbn [kpi_uptime kpi_avg_speed kpi_production kpi_idle_events].
  rewrite (long_idles_no_idle idle_time []) by reflexivity.
  rewrite (long_idles_no_idle idle_time [mkRow 0 5 7]) by reflexivity.
  repeat split.
  eexists. split; [reflexivity|reflexivity].
Qed.

(** C1 (code bug): two running samples one minute apart, every sample
    running.  The headline KPI shows an uptime of 200 percent, and of 12000
    percent when the two are one second apart; the hourly rollup of the
    same two samples, which takes the mean of [is_running], shows 100. *)
Theorem uptime_percent_exceeds_hundred :
  (exists v,
      uptime_percent [mkRow 0 5 0; mkRow 60000000000 5 1] = Value v /\
      (v == 200)%Q) /\
  (exists v,
      uptime_percent [mkRow 0 5 0; mkRow 1000000000 5 1] = Value v /\
      (v == 12000)%Q) /\
  (exists s,
      hourly_stats (dt := naive_floats) (ti := ties_to_even)
        [mkRow 0 5 0; mkRow 60000000000 5 1] = Value [(0, s)] /\
      (Uptime_Percent s == 100)%Q) /\
  length (filter is_running [mkRow 0 5 0; mkRow 60000000000 5 1]) = 2%nat /\
  length [mkRow 0 5 0; mkRow 60000000000 5 1] = 2%nat.
Proof.
  split; [eexists; split; [vm_compute; reflexivity|reflexivity]|].
  split; [eexists; split; [vm_compute; reflexivity|reflexivity]|].
  split; [eexists; split; [vm_compute; reflexivity|reflexivity]|].
  split; reflexivity.
Qed.

(** C9: the four headline KPIs of a run of the script are computed from the
    whole frame and the thresholds; two runs that differ only in the window
    (date range and hour range) show the same four values. *)
Theorem headline_kpis_window_independent `{dt : Dtypes} `{ti : Ties}
    (mc_min_speed_req idle_time : Q)
    (date_range1 date_range2 : list Z) (time_range1 time_range2 : Z * Z)
    (df : DataFrame) :
  let s1 := run_script mc_min_speed_req idle_time date_range1 time_range1 df in
  let s2 := run_script mc_min_speed_req idle_time date_range2 time_range2 df in
  kpi_uptime s1 = kpi_uptime s2 /\
  kpi_avg_speed s1 = kpi_avg_speed s2 /\
  kpi_production s1 = kpi_production s2 /\
  kpi_idle_events s1 = kpi_idle_events s2 /\
  kpi_uptime s1 = uptime_percent df /\
  kpi_avg_speed s1 = avg_speed df /\
  kpi_production s1 = total_production df /\
  kpi_idle_events s1 = (l <- long_idles idle_time df ;; Value (length l)).
Proof. repeat split. Qed.

(** ** Hourly rollup *)

Lemma Qmax_cases (x y : Q) : Qmax x y = x \/ Qmax x y = y.
Proof.
  unfold Qmax, GenericMinMax.gmax. destruct (x ?= y)%Q; auto.
Qed.

Lemma Qmin_cases (x y : Q) : Qmin x y = x \/ Qmin x y = y.
Proof.
  unfold Qmin, GenericMinMax.gmin. destruct (x ?= y)%Q; auto.
Qed.

Lemma fold_left_Qmax_is_max (xs : list Q) (x : Q) :
  is_max (fold_left Qmax xs x) (x :: xs).
Proof.
  revert x. induction xs as [|y xs IH]; intros x.
  - split; [now left|]. intros z [<-|[]]. apply Qle_refl.
  - simpl fold_left. destruct (IH (Qmax x y)) as [Hin Hle]. split.
    + destruct Hin as [E|Hin].
      * rewrite <- E. destruct (Qmax_cases x y) as [->| ->]; simpl; auto.
      * right. now right.
    + intros z [<-|[<-|Hz]].
      * eapply Qle_trans; [apply Q.le_max_l|]. apply Hle. now left.
      * eapply Qle_trans; [apply Q.le_max_r|]. apply Hle. now left.
      * apply Hle. now right.
Qed.

Lemma fold_left_Qmin_is_min (xs : list Q) (x : Q) :
  is_min (fold_left Qmin xs x) (x :: xs).
Proof.
  revert x. induction xs as [|y xs IH]; intros x.
  - split; [now left|]. intros z [<-|[]]. apply Qle_refl.
  - simpl fold_left. destruct (IH (Qmin x y)) as [Hin Hle]. split.
    + destruct Hin as [E|Hin].
      * rewrite <- E. destruct (Qmin_cases x y) as [->| ->]; simpl; auto.
      * right. now right.
    + intros z [<-|[<-|Hz]].
      * eapply Qle_trans; [|apply Q.le_min_l]. apply Hle. now left.
      * eapply Qle_trans; [|apply Q.le_min_r]. apply Hle. now left.
      * apply Hle. now right.
Qed.

Lemma hour_production_cons `{dt : Dtypes} (first : Row) (rest : list Row) :
  hour_production (map quantity (first :: rest))
  = Value (match rest with
           | [] => 0
           | _ :: _ => quantity_sub (quantity (last rest first)) (quantity first)
           end)%Q.
Proof.
  destruct rest as [|second rest]; [reflexivity|].
  unfold hour_production.
  assert (E : (1 <? Z.of_nat (length (map quantity (first :: second :: rest))))
              = true).
  { apply Z.ltb_lt. simpl length. lia. }
  rewrite E.
  change (map quantity (first :: second :: rest))
    with (quantity first :: map quantity (second :: rest)).
  rewrite iloc_last_cons, last_map_default. reflexivity.
Qed.

Lemma agg_hour_rolls_up `{dt : Dtypes} `{ti : Ties} (k : Z) (rows : list Row) :
  rows <> [] ->
  exists s, agg_hour (k, rows) = Value (k, s) /\ rolls_up rows s.
Proof.
  intros Hne. destruct rows as [|first rest]; [contradiction|].
  unfold agg_hour. cbn [fst snd].
  rewrite hour_production_cons.
  cbn [map mean agg_max agg_min bind].
  eexists. split; [reflexivity|].
  unfold rolls_up. cbn [Avg_Speed Max_Speed Min_Speed Uptime_Percent Production].
  cbn [map length]. rewrite !length_map.
  split; [reflexivity|].
  split; [eexists; split; [apply fold_left_Qmax_is_max|reflexivity]|].
  split; [eexists; split; [apply fold_left_Qmin_is_min|reflexivity]|].
  split; [reflexivity|].
  exists first, rest. split; reflexivity.
Qed.



Lemma int64_wrap_small (z : Z) : - 2 ^ 63 <= z < 2 ^ 63 -> int64_wrap z = z.
Proof.
  intros H. unfold int64_wrap. rewrite Z.mod_small; lia.
Qed.

(** Where the quantities subtract exactly, the code's difference is the
    difference. *)
Lemma quantity_sub_exact `{dt : Dtypes} (rows : list Row) (a b : Row) :
  subtracts_exactly rows -> In a rows -> In b rows ->
  (quantity_sub (quantity b) (quantity a) == quantity b - quantity a)%Q.
Proof.
  intros Hex Ha Hb. unfold quantity_sub.
  destruct quantity_int64 eqn:Eq; [|reflexivity].
  destruct Hex as [Hex|Hex]; [congruence|].
  rewrite Forall_forall in Hex.
  destruct (Hex a Ha) as (za & Eza & Hza).
  destruct (Hex b Hb) as (zb & Ezb & Hzb).
  rewrite (Qfloor_comp _ _ Eza), (Qfloor_comp _ _ Ezb), !Qfloor_Z.
  rewrite int64_wrap_small by lia.
  rewrite Eza, Ezb. unfold Zminus.
  rewrite inject_Z_plus, inject_Z_opp. reflexivity.
Qed.





(** ** Worked scenarios *)

Example ten_minutes_groups :
  idle_group ten_minutes = [1; 1; 1; 2; 2; 2; 2; 2; 3; 3] /\
  low_speed_group 10 ten_minutes = [1; 1; 1; 2; 2; 3; 3; 4; 5; 5].
Proof. split; reflexivity. Qed.

(** Two idle runs of 2 and 1 minutes, none reaching a threshold of 3
    minutes; two low-speed runs of 1 and 0 minutes. *)
Example ten_minutes_events :
  (exists e1 e2,
      idle_events ten_minutes = Value [e1; e2] /\
      (ie_duration e1 == 2)%Q /\ (ie_duration e2 == 1)%Q) /\
  long_idles 3 ten_minutes = Value [] /\
  (exists l1 l2,
      low_speed_events_all (ti := ties_to_even) 10 ten_minutes
      = Value [l1; l2] /\
      (ls_duration l1 == 1)%Q /\ (ls_duration l2 == 0)%Q).
Proof.
  split; [|split].
  - do 2 eexists. split; [vm_compute; reflexivity|]. split; reflexivity.
  - vm_compute. reflexivity.
  - do 2 eexists. split; [vm_compute; reflexivity|]. split; reflexivity.
Qed.

(** Five running samples of ten over nine minutes. *)
Example ten_minutes_uptime :
  exists v, uptime_percent ten_minutes = Value v /\ (v == 500 # 9)%Q.
Proof. eexists. split; [vm_compute; reflexivity|reflexivity]. Qed.

(** The empty frame: the KPIs of lines 113-117 are 0; line 129 raises. *)
Example empty_frame_kpis :
  uptime_percent [] = Value 0%Q /\
  avg_speed [] = Value 0%Q /\
  total_production (dt := naive_floats) [] = Value 0%Q /\
  long_idles 10 [] = TypeError.
Proof. repeat split. Qed.

(** The idle event from 00:58 to 01:02 is shown for the hours 0..1 and left
    out for the hour 0 alone, whose last instant is 00:59:59. *)
Example across_the_hour_window :
  (exists e,
      display_idle_events 3 across_the_hour = Value [e] /\
      filtered_idle_events (dt := naive_floats) [0; 0] (0, 1) 3
        across_the_hour = Value [e]) /\
  filtered_idle_events (dt := naive_floats) [0; 0] (0, 0) 3 across_the_hour
  = Value [].
Proof.
  split.
  - eexists. split; vm_compute; reflexivity.
  - vm_compute. reflexivity.
Qed.

(** * Further properties of the script *)

(** ** Loading: rows without a timestamp dropped, the rest in time order *)

Lemma insert_row_Permutation (r : Row) (df : DataFrame) :
  Permutation (insert_row r df) (r :: df).
Proof.
  induction df as [|x df IH]; simpl; [apply Permutation_refl|].
  destruct (timestamp r <=? timestamp x); [apply Permutation_refl|].
  eapply Permutation_trans; [apply perm_skip, IH|apply perm_swap].
Qed.

Lemma sort_values_timestamp_Permutation (df : DataFrame) :
  Permutation (sort_values_timestamp df) df.
Proof.
  induction df as [|r df IH]; simpl; [constructor|].
  eapply Permutation_trans; [apply insert_row_Permutation|].
  now apply perm_skip.
Qed.

Lemma insert_row_chronological (r : Row) (df : DataFrame) :
  chronological df -> chronological (insert_row r df).
Proof.
  unfold chronological.
  induction df as [|x df IH]; intros H.
  - simpl. split; [constructor|exact I].
  - destruct H as [Hx Hdf]. simpl.
    destruct (timestamp r <=? timestamp x) eqn:E.
    + apply Z.leb_le in E. simpl. split; [|split; assumption].
      constructor; [assumption|].
      eapply Forall_impl; [|exact Hx]. simpl. intros; lia.
    + apply Z.leb_gt in E. simpl. split; [|now apply IH].
      apply Forall_forall. intros t Ht. apply in_map_iff in Ht.
      destruct Ht as (y & <- & Hy).
      apply (Permutation_in _ (insert_row_Permutation r df)) in Hy.
      destruct Hy as [<-|Hy]; [lia|].
      rewrite Forall_forall in Hx. apply Hx. now apply in_map.
Qed.

Lemma sort_values_timestamp_chronological (df : DataFrame) :
  chronological (sort_values_timestamp df).
Proof.
  induction df as [|r df IH]; simpl.
  - exact I.
  - now apply insert_row_chronological.
Qed.

Lemma dropna_In (raw : list RawRow) (r : Row) :
  In r (dropna raw) <->
  exists rr, In rr raw /\ raw_timestamp rr = Some (timestamp r) /\
             raw_speed rr = speed r /\ raw_quantity rr = quantity r.
Proof.
  induction raw as [|x raw IH]; simpl.
  - split; [tauto|]. intros (rr & [] & _).
  - destruct (raw_timestamp x) as [t|] eqn:E; simpl; rewrite IH; split.
    + intros [<-|(rr & Hin & H)].
      * exists x. simpl. auto.
      * exists rr. auto.
    + intros (rr & [<-|Hin] & Ht & Hs & Hq).
      * left. destruct r as [t' s' q']. simpl in *. congruence.
      * right. exists rr. auto.
    + intros (rr & Hin & H). exists rr. auto.
    + intros (rr & [<-|Hin] & Ht & Hs & Hq).
      * congruence.
      * exists rr. auto.
Qed.

(** X1: the loaded frame is in non-decreasing time order, it is a
    rearrangement of the raw rows whose timestamp parsed, and each of its
    rows is such a raw row with speed and quantity unchanged. *)
Theorem load_chronological (raw : list RawRow) :
  chronological (load raw) /\
  Permutation (load raw) (dropna raw) /\
  length (load raw)
  = length (filter (fun rr => match raw_timestamp rr with
                              | Some _ => true
                              | None => false
                              end) raw) /\
  (forall r, In r (load raw) <->
             exists rr, In rr raw /\ raw_timestamp rr = Some (timestamp r) /\
                        raw_speed rr = speed r /\ raw_quantity rr = quantity r).
Proof.
  unfold load. split; [apply sort_values_timestamp_chronological|].
  split; [apply sort_values_timestamp_Permutation|]. split.
  - rewrite (Permutation_length (sort_values_timestamp_Permutation (dropna raw))).
    induction raw as [|x raw IH]; [reflexivity|].
    simpl. destruct (raw_timestamp x); simpl; now rewrite IH.
  - intros r. rewrite <- dropna_In. split; intros H.
    + eapply Permutation_in; [apply sort_values_timestamp_Permutation|exact H].
    + eapply Permutation_in;
        [apply Permutation_sym, sort_values_timestamp_Permutation|exact H].
Qed.

(** ** Choosing the file: the name-to-id dictionary *)

Lemma dict_getitem_set_same (k v : String.string) (d : Dict) :
  dict_getitem k (dict_set k v d) = Some v.
Proof.
  induction d as [|[k' v'] d IH]; simpl.
  - now rewrite String.eqb_refl.
  - destruct (String.eqb k k') eqn:E; simpl.
    + now rewrite String.eqb_refl.
    + now rewrite E.
Qed.

Lemma dict_getitem_set_other (k k' v : String.string) (d : Dict) :
  k <> k' -> dict_getitem k' (dict_set k v d) = dict_getitem k' d.
Proof.
  intros Hne. induction d as [|[k0 v0] d IH]; simpl.
  - destruct (String.eqb k' k) eqn:E; [|reflexivity].
    apply String.eqb_eq in E. congruence.
  - destruct (String.eqb k k0) eqn:E; simpl.
    + apply String.eqb_eq in E. subst k0.
      destruct (String.eqb k' k) eqn:E'; [|reflexivity].
      apply String.eqb_eq in E'. congruence.
    + now rewrite IH.
Qed.

Lemma dict_set_keys (k v x : String.string) (d : Dict) :
  In x (map fst (dict_set k v d)) <-> x = k \/ In x (map fst d).
Proof.
  induction d as [|[k' v'] d IH]; simpl.
  - intuition.
  - destruct (String.eqb k k') eqn:E; simpl.
    + apply String.eqb_eq in E. subst k'. intuition.
    + rewrite IH. intuition.
Qed.

Lemma dict_set_NoDup (k v : String.string) (d : Dict) :
  NoDup (map fst d) -> NoDup (map fst (dict_set k v d)).
Proof.
  induction d as [|[k' v'] d IH]; simpl; intros H.
  - constructor; [intros []|constructor].
  - inversion H as [|? ? Hnin Hd]; subst.
    destruct (String.eqb k k') eqn:E; simpl.
    + apply String.eqb_eq in E. subst k'. now constructor.
    + constructor; [|now apply IH].
      rewrite dict_set_keys. intros [->|Hin]; [|contradiction].
      now rewrite String.eqb_refl in E.
Qed.

Lemma dict_getitem_key (k : String.string) (d : Dict) :
  In k (map fst d) <-> exists v, dict_getitem k d = Some v.
Proof.
  induction d as [|[k' v'] d IH]; simpl.
  - split; [tauto|]. intros (v & H). discriminate.
  - destruct (String.eqb k k') eqn:E.
    + apply String.eqb_eq in E. subst k'. split; eauto.
    + rewrite <- IH. split; [|tauto].
      intros [->|H]; [|assumption].
      now rewrite String.eqb_refl in E.
Qed.

Lemma fold_add_file_keys (fs : list DriveFile) (d : Dict) (x : String.string) :
  In x (map fst (fold_left add_file fs d)) <->
  In x (map fst d) \/ In x (map file_name fs).
Proof.
  revert d. induction fs as [|f fs IH]; intros d; simpl; [tauto|].
  rewrite IH. unfold add_file. rewrite dict_set_keys. intuition.
Qed.

Lemma fold_add_file_NoDup (fs : list DriveFile) (d : Dict) :
  NoDup (map fst d) -> NoDup (map fst (fold_left add_file fs d)).
Proof.
  revert d. induction fs as [|f fs IH]; intros d H; simpl; [assumption|].
  apply IH. now apply dict_set_NoDup.
Qed.

Lemma fold_add_file_other (fs : list DriveFile) (d : Dict) (n : String.string) :
  ~ In n (map file_name fs) ->
  dict_getitem n (fold_left add_file fs d) = dict_getitem n d.
Proof.
  revert d. induction fs as [|f fs IH]; intros d H; simpl; [reflexivity|].
  rewrite IH by (intros Hin; apply H; now right).
  apply dict_getitem_set_other. intros E. apply H. now left.
Qed.

(** X2: the names offered for selection are the names of the Drive files,
    each once; looking up an offered name never fails; and where several
    files share a name, the name stands for the last of them. *)
Theorem file_map_lookup (drive_files : list DriveFile) :
  NoDup (file_names drive_files) /\
  (forall n, In n (file_names drive_files) <-> In n (map file_name drive_files)) /\
  (forall n, In n (file_names drive_files) ->
             exists id, dict_getitem n (file_map drive_files) = Some id) /\
  (forall n, ~ In n (map file_name drive_files) ->
             dict_getitem n (file_map drive_files) = None) /\
  (forall pre f post,
      drive_files = pre ++ f :: post ->
      ~ In (file_name f) (map file_name post) ->
      dict_getitem (file_name f) (file_map drive_files) = Some (file_id f)).
Proof.
  unfold file_names, file_map.
  split; [apply fold_add_file_NoDup; constructor|].
  split; [intros n; rewrite fold_add_file_keys; simpl; tauto|].
  split; [intros n Hn; now apply dict_getitem_key|].
  split.
  - intros n Hn. now rewrite fold_add_file_other.
  - intros pre f post -> Hlast.
    rewrite fold_left_app. simpl.
    rewrite fold_add_file_other by assumption.
    unfold add_file. apply dict_getitem_set_same.
Qed.

(** ** Hourly rollup: what every row satisfies *)

Lemma hourly_stats_rows `{dt : Dtypes} `{ti : Ties} (fdf : DataFrame) :
  exists table,
    hourly_stats fdf = Value table /\
    Forall2 (fun g row => fst row = fst g /\ rolls_up (snd g) (snd row))
            (groupby hour fdf) table.
Proof.
  unfold hourly_stats. apply mapM_Forall2.
  intros [k g] Hg. apply groupby_nonempty in Hg.
  destruct (agg_hour_rolls_up k g Hg) as (s & Es & Hs).
  exists (k, s). split; [assumption|]. split; [reflexivity|assumption].
Qed.

Lemma Q_of_bool_range (b : bool) : (0 <= Q_of_bool b)%Q /\ (Q_of_bool b <= 1)%Q.
Proof. destruct b; simpl; split; discriminate. Qed.

Lemma rolls_up_nonempty `{dt : Dtypes} `{ti : Ties} (rows : list Row) (s : HourlyStats) :
  rolls_up rows s -> rows <> [].
Proof. intros (_ & _ & _ & _ & first & rest & -> & _). discriminate. Qed.

Lemma rolls_up_uptime_range `{dt : Dtypes} `{ti : Ties} (rows : list Row) (s : HourlyStats) :
  rolls_up rows s -> (0 <= Uptime_Percent s)%Q /\ (Uptime_Percent s <= 100)%Q.
Proof.
  intros H. pose proof (rolls_up_nonempty _ _ H) as Hne.
  destruct H as (_ & _ & _ & -> & _).
  destruct (average_between (map (fun r => Q_of_bool (is_running r)) rows) 0 1)
    as [Hlo Hhi].
  - destruct rows; [contradiction|discriminate].
  - intros x Hx. apply in_map_iff in Hx. destruct Hx as (r & <- & _).
    apply Q_of_bool_range.
  - intros x Hx. apply in_map_iff in Hx. destruct Hx as (r & <- & _).
    apply Q_of_bool_range.
  - rewrite length_map in Hlo, Hhi.
    unfold np_round.
    destruct (round_with_between np_round_tie_up _ 0 1 2 Hlo Hhi) as [Hr0 Hr1].
    apply (round_with_between np_round_tie_up _ 0 100 1).
    + change (inject_Z 0) with 0%Q in *. lra.
    + change (inject_Z 1) with 1%Q in Hr1. change (inject_Z 100) with 100%Q. lra.
Qed.


(** X3: in every row of the hourly rollup the uptime percent lies between 0
    and 100. *)
Theorem hourly_uptime_range `{dt : Dtypes} `{ti : Ties} (fdf : DataFrame) :
  exists table,
    hourly_stats fdf = Value table /\
    Forall (fun row => (0 <= Uptime_Percent (snd row))%Q /\
                       (Uptime_Percent (snd row) <= 100)%Q) table.
Proof.
  destruct (hourly_stats_rows fdf) as (table & E & HR).
  exists table. split; [assumption|].
  eapply Forall2_Forall_right; [|exact HR].
  intros g row [_ H]. exact (rolls_up_uptime_range _ _ H).
Qed.


(** ** Hours of day: the keys of the hourly rollup *)

Lemma dt_hour_range (ts : Z) : 0 <= dt_hour ts <= 23.
Proof.
  unfold dt_hour.
  assert (Hd : 0 <= ts mod ns_per_day < ns_per_day).
  { apply Z.mod_pos_bound. reflexivity. }
  assert (Hh : 0 < ns_per_hour) by reflexivity.
  split.
  - apply Z.div_pos; lia.
  - assert (H : (ts mod ns_per_day) / ns_per_hour < 24); [|lia].
    apply Z.div_lt_upper_bound; [assumption|].
    change (ns_per_hour * 24) with ns_per_day. lia.
Qed.

Lemma insert_key_increasing (k : Z) (ks : list Z) :
  increasing ks -> increasing (insert_key k ks).
Proof.
  induction ks as [|k' ks IH]; intros H.
  - simpl. split; [constructor|exact I].
  - destruct H as [Hk' Hks]. simpl.
    destruct (k <? k') eqn:E1.
    + apply Z.ltb_lt in E1. simpl. split; [|split; assumption].
      constructor; [assumption|].
      eapply Forall_impl; [|exact Hk']. simpl. intros; lia.
    + destruct (k =? k') eqn:E2.
      * simpl. split; assumption.
      * apply Z.ltb_ge in E1. apply Z.eqb_neq in E2.
        simpl. split; [|now apply IH].
        apply Forall_forall. intros x Hx. apply insert_key_In in Hx.
        destruct Hx as [->|Hx]; [lia|].
        rewrite Forall_forall in Hk'. now apply Hk'.
Qed.

Lemma sorted_keys_increasing (ks : list Z) : increasing (sorted_keys ks).
Proof.
  induction ks as [|k ks IH]; simpl; [exact I|].
  now apply insert_key_increasing.
Qed.

Lemma groupby_keys {A : Type} (key : A -> Z) (rows : list A) :
  map fst (groupby key rows) = sorted_keys (map key rows).
Proof. unfold groupby. rewrite map_map. simpl. apply map_id. Qed.

Lemma Forall2_keys {A B : Type} (P : A -> B -> Prop)
    (xs : list (Z * A)) (ys : list (Z * B)) :
  Forall2 (fun x y => fst y = fst x /\ P (snd x) (snd y)) xs ys ->
  map fst ys = map fst xs.
Proof.
  induction 1 as [|x y xs ys [E _] _ IH]; [reflexivity|].
  simpl. now rewrite E, IH.
Qed.

Lemma increasing_length (hi : Z) (ks : list Z) (lo : Z) :
  increasing ks -> Forall (fun k => lo <= k <= hi) ks ->
  Z.of_nat (length ks) <= Z.max 0 (hi - lo + 1).
Proof.
  revert lo. induction ks as [|k ks IH]; intros lo Hinc Hr.
  - simpl. lia.
  - destruct Hinc as [Hk Hinc]. inversion Hr as [|? ? Hk0 Hr']; subst.
    assert (H : Z.of_nat (length ks) <= Z.max 0 (hi - (k + 1) + 1)).
    { apply IH; [assumption|].
      apply Forall_forall. intros x Hx.
      rewrite Forall_forall in Hk, Hr'.
      specialize (Hk x Hx). specialize (Hr' x Hx). lia. }
    simpl length. lia.
Qed.

(** X5: the hourly rollup is keyed by hours of day between 0 and 23, in
    strictly increasing order, so it has at most 24 rows and no hour twice;
    and an hour has a row exactly when a sample of the frame falls in it. *)
Theorem hourly_keys `{dt : Dtypes} `{ti : Ties} (fdf : DataFrame) :
  exists table,
    hourly_stats fdf = Value table /\
    increasing (map fst table) /\
    Forall (fun row => 0 <= fst row <= 23) table /\
    (length table <= 24)%nat /\
    (forall h, In h (map fst table) <-> exists r, In r fdf /\ hour r = h).
Proof.
  destruct (hourly_stats_rows fdf) as (table & E & HR).
  exists table. split; [assumption|].
  pose proof (Forall2_keys _ _ _ HR) as Hk. rewrite groupby_keys in Hk.
  assert (Hin : forall h, In h (map fst table) <-> exists r, In r fdf /\ hour r = h).
  { intros h. rewrite Hk, sorted_keys_In, in_map_iff. split.
    - intros (r & Hr & Hi). eauto.
    - intros (r & Hi & Hr). eauto. }
  assert (Hinc : increasing (map fst table)).
  { rewrite Hk. apply sorted_keys_increasing. }
  assert (Hrange : Forall (fun k => 0 <= k <= 23) (map fst table)).
  { apply Forall_forall. intros h Hh. apply Hin in Hh.
    destruct Hh as (r & _ & <-). apply dt_hour_range. }
  split; [assumption|]. split; [|split; [|assumption]].
  - apply Forall_forall. intros row Hrow.
    rewrite Forall_forall in Hrange. apply Hrange. now apply in_map.
  - pose proof (increasing_length 23 _ 0 Hinc Hrange) as Hlen.
    rewrite length_map in Hlen. lia.
Qed.

(** ** The window over samples *)

Lemma fold_left_min_le (xs : list Z) (x : Z) :
  fold_left Z.min xs x <= x /\ Forall (fun y => fold_left Z.min xs x <= y) xs.
Proof.
  revert x. induction xs as [|y xs IH]; intros x; simpl.
  - split; [lia|constructor].
  - destruct (IH (Z.min x y)) as [H1 H2]. split; [lia|].
    constructor; [lia|assumption].
Qed.

Lemma fold_left_max_ge (xs : list Z) (x : Z) :
  x <= fold_left Z.max xs x /\ Forall (fun y => y <= fold_left Z.max xs x) xs.
Proof.
  revert x. induction xs as [|y xs IH]; intros x; simpl.
  - split; [lia|constructor].
  - destruct (IH (Z.max x y)) as [H1 H2]. split; [lia|].
    constructor; [lia|assumption].
Qed.

Lemma series_min_le (xs : list Z) (m : Z) :
  series_min xs = Value m -> Forall (fun x => m <= x) xs.
Proof.
  destruct xs as [|x xs]; [discriminate|]. simpl. intros H. inversion H; subst.
  destruct (fold_left_min_le xs x). now constructor.
Qed.

Lemma series_max_ge (xs : list Z) (m : Z) :
  series_max xs = Value m -> Forall (fun x => x <= m) xs.
Proof.
  destruct xs as [|x xs]; [discriminate|]. simpl. intros H. inversion H; subst.
  destruct (fold_left_max_ge xs x). now constructor.
Qed.

Lemma filter_chronological (f : Row -> bool) (df : DataFrame) :
  chronological df -> chronological (filter f df).
Proof.
  unfold chronological. induction df as [|r df IH]; intros H; [exact I|].
  destruct H as [Hr Hdf]. simpl.
  destruct (f r); [|now apply IH].
  simpl. split; [|now apply IH].
  apply Forall_forall. intros t Ht. apply in_map_iff in Ht.
  destruct Ht as (x & <- & Hx). apply filter_In in Hx.
  rewrite Forall_forall in Hr. apply Hr. apply in_map. tauto.
Qed.

(** X6: with the date picker at its bounds (the first and the last date of
    the frame) and the hour slider at 0..23, the filtered frame is the whole
    frame. *)
Theorem default_window_keeps_frame (df : DataFrame) (dmin dmax : Z) :
  min_date df = Value dmin ->
  max_date df = Value dmax ->
  filtered_df [dmin; dmax] (0, 23) df = Value df.
Proof.
  intros Hmin Hmax. unfold filtered_df. simpl. apply (f_equal Value).
  apply filter_all. intros r Hr.
  apply series_min_le in Hmin. apply series_max_ge in Hmax.
  rewrite Forall_forall in Hmin, Hmax.
  specialize (Hmin (date r) (in_map date df r Hr)).
  specialize (Hmax (date r) (in_map date df r Hr)).
  pose proof (dt_hour_range (timestamp r)) as Hh. unfold hour.
  rewrite !andb_true_iff, !Z.leb_le. lia.
Qed.

Lemma default_window_keeps_frame_witness :
  min_date ten_minutes = Value 0 /\
  max_date ten_minutes = Value 0 /\
  filtered_df [0; 0] (0, 23) ten_minutes = Value ten_minutes.
Proof.
  split; [reflexivity|]. split; [reflexivity|].
  apply (default_window_keeps_frame ten_minutes 0 0); reflexivity.
Defined.

(** X7: a window given by one date is the window of the range from that
    date to itself: the same filtered frame, the same filtered idle events
    and the same shown table. *)
Theorem single_date_window `{dt : Dtypes} (d : Z) (time_range : Z * Z) (idle_time : Q)
    (df : DataFrame) :
  filtered_df [d] time_range df = filtered_df [d; d] time_range df /\
  filtered_idle_events [d] time_range idle_time df
  = filtered_idle_events [d; d] time_range idle_time df /\
  shown_idle_events [d] time_range idle_time df
  = shown_idle_events [d; d] time_range idle_time df.
Proof.
  split; [|split].
  - unfold filtered_df. simpl. apply (f_equal Value). apply filter_ext. intros r.
    f_equal. f_equal.
    destruct (date r =? d) eqn:E.
    + apply Z.eqb_eq in E. rewrite E, Z.leb_refl. reflexivity.
    + apply Z.eqb_neq in E.
      destruct (d <=? date r) eqn:E1, (date r <=? d) eqn:E2; try reflexivity.
      apply Z.leb_le in E1, E2. lia.
  - reflexivity.
  - reflexivity.
Qed.


(** ** Production *)

Lemma diff_shifted (q : Q) (qs : list Q) (prev : Q) :
  fillna 0
    (map2 (fun x p => option_map (fun p0 => (x - p0)%Q) p) (q :: qs)
          (Some prev :: map Some (removelast (q :: qs))))
  = deltas prev (q :: qs).
Proof.
  revert q prev. induction qs as [|q' qs IH]; intros q prev; [reflexivity|].
  change (removelast (q :: q' :: qs)) with (q :: removelast (q' :: qs)).
  cbn [map map2 fillna option_map deltas]. f_equal.
  exact (IH q' q).
Qed.

Lemma production_rate_cons (r : Row) (fdf : DataFrame) :
  production_rate (r :: fdf) = 0%Q :: deltas (quantity r) (map quantity fdf).
Proof.
  unfold production_rate, diff, shift.
  destruct fdf as [|r' fdf]; [reflexivity|].
  change (map quantity (r :: r' :: fdf))
    with (quantity r :: quantity r' :: map quantity fdf).
  change (removelast (quantity r :: quantity r' :: map quantity fdf))
    with (quantity r :: removelast (quantity r' :: map quantity fdf)).
  cbn [map map2 fillna option_map]. f_equal.
  exact (diff_shifted (quantity r') (map quantity fdf) (quantity r)).
Qed.



Lemma total_production_cons `{dt : Dtypes} (first second : Row) (rest : list Row) :
  total_production (first :: second :: rest)
  = Value (quantity_sub (quantity (last rest second)) (quantity first)).
Proof.
  unfold total_production.
  assert (E : (1 <? Z.of_nat (length (first :: second :: rest))) = true).
  { apply Z.ltb_lt. simpl length. lia. }
  rewrite E.
  change (map quantity (first :: second :: rest))
    with (quantity first :: map quantity (second :: rest)).
  rewrite iloc_last_cons.
  change (map quantity (second :: rest))
    with (quantity second :: map quantity rest).
  rewrite last_cons_default, last_map_default. reflexivity.
Qed.

Lemma subtracts_exactly_filter `{dt : Dtypes} (f : Row -> bool) (df : DataFrame) :
  subtracts_exactly df -> subtracts_exactly (filter f df).
Proof.
  intros [H|H]; [now left|right].
  rewrite Forall_forall in *. intros r Hr. apply filter_In in Hr.
  apply H. tauto.
Qed.



(** On a counter of 64-bit integers that goes from -2^63 to 1 the
    subtraction of line 117 wraps around: the production shown is
    -2^63 + 1, the production rates add up to 2^63 + 1. *)
Example production_wraps_around :
  let fdf := [mkRow 0 5 (inject_Z (- 2 ^ 63)); mkRow 60000000000 5 1] in
  total_production (dt := naive_ints) fdf = Value (inject_Z (- 2 ^ 63 + 1)) /\
  (Qsum (production_rate fdf) == inject_Z (2 ^ 63 + 1))%Q.
Proof. split; [vm_compute; reflexivity|reflexivity]. Qed.

Lemma counter_grows_filter (f : Row -> bool) (df : DataFrame) :
  counter_grows (map quantity df) -> counter_grows (map quantity (filter f df)).
Proof.
  induction df as [|r df IH]; intros H; [exact I|].
  destruct H as [Hr Hdf]. simpl.
  destruct (f r); [|now apply IH].
  simpl. split; [|now apply IH].
  apply Forall_forall. intros q Hq. apply in_map_iff in Hq.
  destruct Hq as (x & <- & Hx). apply filter_In in Hx.
  rewrite Forall_forall in Hr. apply Hr. apply in_map. tauto.
Qed.

Lemma counter_grows_last (q : Q) (qs : list Q) :
  counter_grows (q :: qs) -> (q <= last qs q)%Q.
Proof.
  intros [Hq _]. destruct (last_In qs q) as [<-|Hin]; [apply Qle_refl|].
  rewrite Forall_forall in Hq. now apply Hq.
Qed.

Lemma counter_grows_first_last (first : Row) (rest : list Row) :
  counter_grows (map quantity (first :: rest)) ->
  (quantity first <= quantity (last rest first))%Q.
Proof.
  intros H. rewrite <- last_map_default.
  exact (counter_grows_last (quantity first) (map quantity rest) H).
Qed.

Lemma deltas_nonneg (qs : list Q) (prev : Q) :
  counter_grows (prev :: qs) -> Forall (fun x => (0 <= x)%Q) (deltas prev qs).
Proof.
  revert prev. induction qs as [|q qs IH]; intros prev H; [constructor|].
  destruct H as [Hp Hqs]. simpl. constructor.
  - inversion Hp; subst. lra.
  - now apply IH.
Qed.

Lemma filtered_df_filter (date_range : list Z) (time_range : Z * Z)
    (df fdf : DataFrame) :
  filtered_df date_range time_range df = Value fdf ->
  exists f, fdf = filter f df.
Proof.
  unfold filtered_df. intros H.
  destruct date_range as [|d [|d' [|d'' ds]]]; simpl in H;
    try discriminate; inversion H; eauto.
Qed.

Lemma round_nonneg `{ti : Ties} (x : Q) (n : nat) :
  (0 <= x)%Q -> (0 <= round x n)%Q.
Proof. apply round_with_nonneg. Qed.

Lemma rolls_up_production_nonneg `{dt : Dtypes} `{ti : Ties} (rows : list Row) (s : HourlyStats) :
  subtracts_exactly rows ->
  counter_grows (map quantity rows) -> rolls_up rows s ->
  (0 <= Production s)%Q.
Proof.
  intros Hex Hg (_ & _ & _ & _ & first & rest & -> & ->).
  apply round_with_nonneg. destruct rest as [|second rest]; [apply Qle_refl|].
  rewrite (quantity_sub_exact (first :: second :: rest));
    [|assumption|now left|apply last_In].
  apply counter_grows_first_last in Hg. lra.
Qed.

Lemma Forall2_left_In {A B : Type} (R : A -> B -> Prop) (xs : list A) (ys : list B) :
  Forall2 R xs ys -> Forall2 (fun x y => In x xs /\ R x y) xs ys.
Proof.
  induction 1 as [|x y xs ys HR _ IH]; constructor.
  - split; [now left|assumption].
  - eapply Forall2_impl; [|exact IH]. simpl. intros a b [Ha Hab].
    split; [now right|assumption].
Qed.

(** X10: if the quantities subtract without wrapping around and the counter
    never runs backwards along the frame, the total production is not
    negative, and for every window neither is any value of the production
    rate nor the production of any hour. *)
Theorem production_never_negative `{dt : Dtypes} `{ti : Ties} (df : DataFrame) :
  subtracts_exactly df ->
  counter_grows (map quantity df) ->
  (exists v, total_production df = Value v /\ (0 <= v)%Q) /\
  (forall date_range time_range fdf,
      filtered_df date_range time_range df = Value fdf ->
      Forall (fun x => (0 <= x)%Q) (production_rate fdf) /\
      exists table,
        hourly_stats fdf = Value table /\
        Forall (fun row => (0 <= Production (snd row))%Q) table).
Proof.
  intros Hex Hg. split.
  - destruct df as [|first [|second rest]].
    + exists 0%Q. split; [reflexivity|apply Qle_refl].
    + exists 0%Q. split; [reflexivity|apply Qle_refl].
    + eexists. split; [apply total_production_cons|].
      rewrite (quantity_sub_exact (first :: second :: rest));
        [|assumption|now left|right; apply last_In].
      apply counter_grows_first_last in Hg.
      rewrite last_cons_default in Hg. lra.
  - intros date_range time_range fdf Hf.
    destruct (filtered_df_filter _ _ _ _ Hf) as (f & ->).
    pose proof (counter_grows_filter f df Hg) as Hgf.
    pose proof (subtracts_exactly_filter f df Hex) as Hexf. split.
    + destruct (filter f df) as [|r rest]; [constructor|].
      rewrite production_rate_cons. constructor; [apply Qle_refl|].
      now apply deltas_nonneg.
    + destruct (hourly_stats_rows (filter f df)) as (table & E & HR).
      exists table. split; [assumption|].
      apply Forall2_left_In in HR.
      eapply Forall2_Forall_right; [|exact HR].
      intros [k g] row [Hin [_ Hrow]].
      apply groupby_In in Hin. destruct Hin as [-> _].
      eapply rolls_up_production_nonneg; [| |exact Hrow].
      * now apply subtracts_exactly_filter.
      * now apply counter_grows_filter.
Qed.

Lemma production_never_negative_witness :
  subtracts_exactly (dt := naive_ints) ten_minutes /\
  counter_grows (map quantity ten_minutes) /\
  exists v, total_production (dt := naive_ints) ten_minutes = Value v /\ (0 <= v)%Q.
Proof.
  assert (H0 : subtracts_exactly (dt := naive_ints) ten_minutes).
  { right. repeat constructor;
      (eexists; split; [reflexivity|split; [discriminate|reflexivity]]). }
  assert (H : counter_grows (map quantity ten_minutes)).
  { simpl. repeat split; repeat constructor; discriminate. }
  split; [exact H0|]. split; [exact H|].
  exact (proj1 (production_never_negative (dt := naive_ints) (ti := ties_to_even)
                  ten_minutes H0 H)).
Defined.

(** ** Events against their runs, speeds included *)

Lemma agg_true_blocks {E : Type} (tag : Row -> bool)
    (agg : Z * list (Z * Row) -> outcome E) (R : Z * list Row -> E -> Prop)
    (df : DataFrame) :
  (forall b, snd b <> [] -> exists ev, agg (fst b, with_id b) = Value ev /\ R b ev) ->
  exists evs,
    mapM agg (groupby fst (filter (fun p => tag (snd p))
                                  (combine (run_ids (map tag df)) df)))
    = Value evs /\
    Forall2 R (true_blocks tag df) evs.
Proof.
  intros Hagg. rewrite tagged_groups. fold (true_blocks tag df).
  destruct (mapM_Forall2 agg (fun g ev => R (fst g, map snd (snd g)) ev)
              (map (fun b => (fst b, with_id b)) (true_blocks tag df)))
    as (evs & E1 & HR).
  - intros g Hg. apply in_map_iff in Hg. destruct Hg as (b & <- & Hb).
    cbn [fst snd]. rewrite map_snd_with_id.
    destruct (Hagg b) as (ev & Ev & Rv).
    + eapply true_blocks_nonempty. exact Hb.
    + exists ev. split; [assumption|]. now destruct b.
  - exists evs. split; [assumption|].
    apply Forall2_map_left_inv in HR.
    eapply Forall2_impl; [|exact HR].
    intros b ev. cbn [fst snd]. rewrite map_snd_with_id. now destruct b.
Qed.

Lemma idle_events_blocks (df : DataFrame) :
  exists evs, idle_events df = Value evs /\
              Forall2 idle_event_of_block (true_blocks idle df) evs.
Proof.
  unfold idle_events, idle_group. apply agg_true_blocks.
  intros b Hne. unfold agg_idle_event. cbn [fst snd].
  rewrite map_snd_with_id.
  destruct (snd b) as [|first rest] eqn:E; [contradiction|].
  rewrite idle_duration_cons.
  cbn [map agg_first agg_last mean bind].
  eexists. split; [reflexivity|].
  unfold idle_event_of_block. rewrite E.
  cbn [ie_idle_group ie_avg_speed map mean].
  split; [reflexivity|]. split; [|reflexivity].
  exists first, rest. cbn [ie_start ie_end ie_duration].
  rewrite last_map_default. repeat split.
Qed.



Lemma mean_lower (xs : list Q) (lo m : Q) :
  mean xs = Value m -> (forall x, In x xs -> (lo <= x)%Q) -> (lo <= m)%Q.
Proof.
  intros Hm Hlo. destruct xs as [|x xs]; [discriminate|].
  simpl in Hm. inversion Hm; subst m.
  apply Qle_shift_div_l.
  - change 0%Q with (inject_Z 0). rewrite <- Zlt_Qlt. lia.
  - rewrite Qmult_comm. apply (Qsum_lower (x :: xs) lo Hlo).
Qed.

Lemma no_low_speed_below_one (req : Q) (r : Row) :
  (req <= 1)%Q -> is_low_speed req r = false.
Proof.
  intros Hreq. destruct (is_low_speed req r) eqn:E; [|reflexivity].
  apply is_low_speed_iff in E. lra.
Qed.

(** X11: the idle-events table is empty exactly when no sample is idle, the
    low-speed table exactly when no sample is low-speed, which is always so
    for a speed requirement of at most 1; and neither table has more events
    than the frame has samples of its kind. *)
Theorem no_events_iff `{ti : Ties} (mc_min_speed_req : Q) (df : DataFrame) :
  (idle_events df = Value [] <-> filter idle df = []) /\
  (low_speed_events_all mc_min_speed_req df = Value [] <->
   filter (is_low_speed mc_min_speed_req) df = []) /\
  ((mc_min_speed_req <= 1)%Q -> low_speed_events_all mc_min_speed_req df = Value []) /\
  (exists evs, idle_events df = Value evs /\
               (length evs <= length (filter idle df))%nat) /\
  (exists evs, low_speed_events_all mc_min_speed_req df = Value evs /\
               (length evs
                <= length (filter (is_low_speed mc_min_speed_req) df))%nat).
Proof.
  destruct (events_none_iff idle df idle_event_of_run (idle_events df)
              (idle_events_runs df)) as [Hi Hic].
  destruct (events_none_iff (is_low_speed mc_min_speed_req) df
              low_speed_event_of_run
              (low_speed_events_all mc_min_speed_req df)
              (low_speed_events_runs mc_min_speed_req df)) as [Hl Hlc].
  split; [exact Hi|]. split; [exact Hl|]. split; [|split; assumption].
  intros Hreq. apply Hl. clear Hi Hic Hl Hlc.
  induction df as [|r df IH]; [reflexivity|].
  simpl. rewrite no_low_speed_below_one by assumption. exact IH.
Qed.



(** ** Events of a frame in time order *)

Lemma non_decreasing_app (l1 l2 : list Z) :
  non_decreasing (l1 ++ l2) <->
  non_decreasing l1 /\ non_decreasing l2 /\
  (forall a b, In a l1 -> In b l2 -> a <= b).
Proof.
  induction l1 as [|x l1 IH]; simpl.
  - split; [intros H; repeat split; [assumption|intros a b []]|tauto].
  - rewrite IH, Forall_app. split.
    + intros ([H1 H2] & H3 & H4 & H5). repeat split; try assumption.
      intros a b [<-|Ha] Hb.
      * rewrite Forall_forall in H2. now apply H2.
      * now apply H5.
    + intros ([H1 H2] & H3 & H4). repeat split; try assumption.
      * apply Forall_forall. intros b Hb. apply H4; [now left|assumption].
      * intros a b Ha Hb. apply H4; [now right|assumption].
Qed.

Lemma run_instants_In (gs : list (list Row)) (t : Z) :
  In t (run_instants gs) -> In t (map timestamp (concat gs)).
Proof.
  induction gs as [|g gs IH]; [intros []|].
  unfold run_instants. simpl. fold (run_instants gs).
  rewrite in_app_iff, map_app, in_app_iff. intros [H|H]; [left|right; now apply IH].
  destruct g as [|first rest]; [destruct H|].
  destruct H as [<-|[<-|[]]].
  - apply in_map. now left.
  - apply in_map. apply last_In.
Qed.

Lemma run_instants_non_decreasing (gs : list (list Row)) :
  non_decreasing (map timestamp (concat gs)) -> non_decreasing (run_instants gs).
Proof.
  induction gs as [|g gs IH]; intros H; [exact I|].
  simpl in H. rewrite map_app in H. apply non_decreasing_app in H.
  destruct H as (Hg & Hgs & Hcross).
  unfold run_instants. simpl. fold (run_instants gs).
  apply non_decreasing_app. split; [|split; [now apply IH|]].
  - destruct g as [|first rest]; [exact I|].
    simpl. repeat split; try constructor; try constructor.
    destruct Hg as [Hfirst _].
    destruct (last_In rest first) as [<-|Hin]; [lia|].
    rewrite Forall_forall in Hfirst. apply Hfirst. now apply in_map.
  - intros a b Ha Hb. apply Hcross; [|now apply run_instants_In].
    destruct g as [|first rest]; [destruct Ha|].
    destruct Ha as [<-|[<-|[]]]; apply in_map; [now left|apply last_In].
Qed.

Lemma idle_instants_runs (gs : list (list Row)) (evs : list IdleEvent) :
  Forall2 idle_event_of_run gs evs -> idle_instants evs = run_instants gs.
Proof.
  induction 1 as [|g ev gs evs (first & rest & -> & Hs & He & _) _ IH];
    [reflexivity|].
  unfold idle_instants, run_instants in *. simpl. now rewrite Hs, He, IH.
Qed.

Lemma low_speed_instants_runs `{ti : Ties} (gs : list (list Row)) (evs : list LowSpeedEvent) :
  Forall2 low_speed_event_of_run gs evs -> low_speed_instants evs = run_instants gs.
Proof.
  induction 1 as [|g ev gs evs (first & rest & -> & Hs & He & _) _ IH];
    [reflexivity|].
  unfold low_speed_instants, run_instants in *. simpl. now rewrite Hs, He, IH.
Qed.

Lemma true_runs_chronological (tag : Row -> bool) (df : DataFrame) :
  chronological df -> non_decreasing (run_instants (true_runs tag df)).
Proof.
  intros H. apply run_instants_non_decreasing.
  rewrite true_runs_concat. now apply filter_chronological.
Qed.

Lemma elapsed_minutes_nonneg (a b : Z) : a <= b -> (0 <= elapsed_minutes a b)%Q.
Proof.
  intros H. unfold elapsed_minutes, total_seconds.
  assert (Hd : (0 <= inject_Z (b - a))%Q).
  { change 0%Q with (inject_Z 0). rewrite <- Zle_Qle. lia. }
  apply Qle_shift_div_l; [reflexivity|].
  apply Qle_shift_div_l; [reflexivity|].
  revert Hd. generalize (inject_Z (b - a)). intros q Hq. lra.
Qed.

Lemma idle_spans_ordered (evs : list IdleEvent) :
  non_decreasing (idle_instants evs) ->
  Forall (fun ev => ie_start ev <= ie_end ev) evs.
Proof.
  induction evs as [|ev evs IH]; intros H; [constructor|].
  unfold idle_instants in H. simpl in H. fold (idle_instants evs) in H.
  destruct H as [Hs [_ Hrest]]. inversion Hs; subst. constructor; auto.
Qed.

Lemma low_speed_spans_ordered (evs : list LowSpeedEvent) :
  non_decreasing (low_speed_instants evs) ->
  Forall (fun ev => ls_start ev <= ls_end ev) evs.
Proof.
  induction evs as [|ev evs IH]; intros H; [constructor|].
  unfold low_speed_instants in H. simpl in H. fold (low_speed_instants evs) in H.
  destruct H as [Hs [_ Hrest]]. inversion Hs; subst. constructor; auto.
Qed.

Lemma Forall_and {A : Type} (P Q0 : A -> Prop) (l : list A) :
  Forall P l -> Forall Q0 l -> Forall (fun x => P x /\ Q0 x) l.
Proof.
  intros HP HQ. apply Forall_forall. intros x Hx.
  rewrite Forall_forall in HP, HQ. auto.
Qed.

Lemma events_ordered `{ti : Ties} (mc_min_speed_req : Q) (df : DataFrame) :
  chronological df ->
  (exists evs,
      idle_events df = Value evs /\
      non_decreasing (idle_instants evs) /\
      Forall (fun ev => ie_start ev <= ie_end ev /\ (0 <= ie_duration ev)%Q) evs) /\
  (exists evs,
      low_speed_events_all mc_min_speed_req df = Value evs /\
      non_decreasing (low_speed_instants evs) /\
      Forall (fun ev => ls_start ev <= ls_end ev /\ (0 <= ls_duration ev)%Q) evs).
Proof.
  intros Hdf. split.
  - destruct (idle_events_runs df) as (evs & E & HR).
    exists evs. split; [assumption|].
    assert (Hnd : non_decreasing (idle_instants evs)).
    { rewrite (idle_instants_runs _ _ HR). now apply true_runs_chronological. }
    split; [assumption|].
    pose proof (idle_spans_ordered evs Hnd) as Hord.
    assert (Hspan : Forall (fun ev => ie_duration ev
                                      = elapsed_minutes (ie_start ev) (ie_end ev)) evs).
    { eapply Forall2_Forall_right; [|exact HR].
      intros g ev Hev. exact (summarises_own_span _ _ _ _ _ Hev). }
    eapply Forall_impl; [|exact (Forall_and _ _ _ Hord Hspan)].
    simpl. intros ev [Ho Hd]. split; [assumption|].
    rewrite Hd. now apply elapsed_minutes_nonneg.
  - destruct (low_speed_events_runs mc_min_speed_req df) as (evs & E & HR).
    exists evs. split; [assumption|].
    assert (Hnd : non_decreasing (low_speed_instants evs)).
    { rewrite (low_speed_instants_runs _ _ HR). now apply true_runs_chronological. }
    split; [assumption|].
    pose proof (low_speed_spans_ordered evs Hnd) as Hord.
    assert (Hspan : Forall (fun ev => ls_duration ev
                                      = round (elapsed_minutes (ls_start ev) (ls_end ev)) 4)
                           evs).
    { eapply Forall2_Forall_right; [|exact HR].
      intros g ev Hev. exact (summarises_own_span _ _ _ _ _ Hev). }
    eapply Forall_impl; [|exact (Forall_and _ _ _ Hord Hspan)].
    simpl. intros ev [Ho Hd]. split; [assumption|].
    rewrite Hd. apply round_nonneg. now apply elapsed_minutes_nonneg.
Qed.

(** X13: on a frame in time order, the events of the idle table follow one
    another in time without overlap (start, end, start, end, ... never goes
    back), every event starts no later than it ends and has a duration that
    is not negative; the same holds of the low-speed table. *)
Theorem events_in_time_order `{ti : Ties} (mc_min_speed_req : Q) (df : DataFrame) :
  chronological df ->
  (exists evs,
      idle_events df = Value evs /\
      non_decreasing (idle_instants evs) /\
      Forall (fun ev => ie_start ev <= ie_end ev /\ (0 <= ie_duration ev)%Q) evs) /\
  (exists evs,
      low_speed_events_all mc_min_speed_req df = Value evs /\
      non_decreasing (low_speed_instants evs) /\
      Forall (fun ev => ls_start ev <= ls_end ev /\ (0 <= ls_duration ev)%Q) evs).
Proof. apply events_ordered. Qed.

Lemma ten_minutes_chronological : chronological ten_minutes.
Proof.
  unfold chronological. simpl.
  repeat match goal with
         | |- _ /\ _ => split
         | |- Forall _ _ => constructor
         | |- True => exact I
         | |- _ <= _ => discriminate
         end.
Qed.

Lemma events_in_time_order_witness :
  chronological ten_minutes /\
  exists evs,
    idle_events ten_minutes = Value evs /\
    non_decreasing (idle_instants evs) /\
    Forall (fun ev => ie_start ev <= ie_end ev /\ (0 <= ie_duration ev)%Q) evs.
Proof.
  split; [exact ten_minutes_chronological|].
  exact (proj1 (events_in_time_order (ti := ties_to_even) 10 ten_minutes
                  ten_minutes_chronological)).
Defined.

(** ** Signs and sizes of the headline KPIs *)

Lemma mean_above_one (xs : list Q) (m : Q) :
  mean xs = Value m -> (forall x, In x xs -> (1 < x)%Q) -> (1 < m)%Q.
Proof.
  intros Hm Hx. destruct xs as [|x xs]; [discriminate|].
  destruct (fold_left_Qmin_is_min xs x) as [Hin Hle].
  apply Qlt_le_trans with (fold_left Qmin xs x); [now apply Hx|].
  exact (mean_lower _ _ _ Hm Hle).
Qed.

(** X14: the average running speed is 0 when no sample is running and
    greater than 1 otherwise; it is never a value in between. *)
Theorem avg_speed_zero_or_above_one (df : DataFrame) :
  exists v,
    avg_speed df = Value v /\
    (filter is_running df = [] -> v = 0%Q) /\
    (filter is_running df <> [] -> (1 < v)%Q).
Proof.
  unfold avg_speed, running_minutes.
  destruct (filter is_running df) as [|r rs] eqn:E.
  - exists 0%Q. simpl. repeat split. intros H. now contradiction H.
  - assert (Hn : negb (Z.of_nat (length (r :: rs)) =? 0) = true).
    { apply negb_true_iff, Z.eqb_neq. simpl length. lia. }
    rewrite Hn.
    destruct (mean (map speed (r :: rs))) as [v| | |] eqn:Em; try discriminate.
    exists v. split; [reflexivity|]. split; [discriminate|]. intros _.
    apply (mean_above_one _ _ Em).
    intros x Hx. apply in_map_iff in Hx. destruct Hx as (r' & <- & Hr').
    apply is_running_iff.
    assert (Hf : In r' (filter is_running df)) by (rewrite E; exact Hr').
    apply filter_In in Hf. tauto.
Qed.

Lemma uptime_ordered (df : DataFrame) :
  chronological df ->
  exists tm u,
    total_minutes df = Value tm /\ (0 <= tm)%Q /\
    uptime_percent df = Value u /\ (0 <= u)%Q.
Proof.
  intros Hdf.
  assert (Htm : exists tm, total_minutes df = Value tm /\ (0 <= tm)%Q).
  { destruct df as [|first [|second rest]].
    - exists 0%Q. split; [reflexivity|apply Qle_refl].
    - exists 0%Q. split; [reflexivity|apply Qle_refl].
    - eexists. split; [apply total_minutes_long|].
      apply elapsed_minutes_nonneg.
      destruct Hdf as [Hfirst _]. rewrite Forall_forall in Hfirst.
      apply Hfirst. apply (in_map timestamp (second :: rest)).
      apply last_In. }
  destruct Htm as (tm & Etm & Htm).
  exists tm.
  destruct (Qeq_dec tm 0) as [Hz|Hnz].
  - exists 0%Q. split; [assumption|]. split; [assumption|].
    split; [now apply uptime_percent_zero with tm|apply Qle_refl].
  - eexists. split; [assumption|]. split; [assumption|].
    split; [exact (uptime_percent_nonzero df tm Etm Hnz)|].
    assert (Hr : (0 <= inject_Z (running_minutes df))%Q).
    { change 0%Q with (inject_Z 0). rewrite <- Zle_Qle.
      unfold running_minutes. lia. }
    apply Qle_shift_div_l.
    + destruct (Qlt_le_dec 0 tm) as [H|H]; [assumption|].
      exfalso. apply Hnz. now apply Qle_antisym.
    + revert Hr. generalize (inject_Z (running_minutes df)). intros q Hq. lra.
Qed.

(** X15: on a frame in time order the elapsed minutes and the uptime
    percent are not negative. *)
Theorem uptime_percent_nonneg (df : DataFrame) :
  chronological df ->
  exists tm u,
    total_minutes df = Value tm /\ (0 <= tm)%Q /\
    uptime_percent df = Value u /\ (0 <= u)%Q.
Proof. apply uptime_ordered. Qed.

(** X21: whatever the raw rows, on the frame as loaded (rows without a
    timestamp dropped, the rest sorted) the idle events and the low-speed
    events follow one another in time without overlap and with durations
    that are not negative, and the elapsed minutes and the uptime percent
    are not negative. *)
Theorem loaded_frame_in_time_order `{ti : Ties} (mc_min_speed_req : Q) (raw : list RawRow) :
  (exists evs,
      idle_events (load raw) = Value evs /\
      non_decreasing (idle_instants evs) /\
      Forall (fun ev => ie_start ev <= ie_end ev /\ (0 <= ie_duration ev)%Q) evs) /\
  (exists evs,
      low_speed_events_all mc_min_speed_req (load raw) = Value evs /\
      non_decreasing (low_speed_instants evs) /\
      Forall (fun ev => ls_start ev <= ls_end ev /\ (0 <= ls_duration ev)%Q) evs) /\
  (exists tm u,
      total_minutes (load raw) = Value tm /\ (0 <= tm)%Q /\
      uptime_percent (load raw) = Value u /\ (0 <= u)%Q).
Proof.
  pose proof (sort_values_timestamp_chronological (dropna raw)) as Hc.
  fold (load raw) in Hc.
  destruct (events_ordered mc_min_speed_req (load raw) Hc) as [Hi Hl].
  split; [exact Hi|]. split; [exact Hl|].
  exact (uptime_ordered (load raw) Hc).
Qed.

(** ** Tables ordered by duration *)

Section DescendingInsertion.

Context {E : Type}.
Variable dur : E -> Q.
Variable ins : E -> list E -> list E.
Hypothesis ins_nil : forall e, ins e [] = [e].
Hypothesis ins_cons :
  forall e x l,
    ins e (x :: l) = if Qle_bool (dur x) (dur e) then e :: x :: l else x :: ins e l.

Lemma ins_Permutation (e : E) (l : list E) : Permutation (ins e l) (e :: l).
Proof.
  induction l as [|x l IH]; [rewrite ins_nil; apply Permutation_refl|].
  rewrite ins_cons. destruct (Qle_bool (dur x) (dur e)); [apply Permutation_refl|].
  eapply Permutation_trans; [apply perm_skip, IH|apply perm_swap].
Qed.

Lemma ins_non_increasing (e : E) (l : list E) :
  non_increasing (map dur l) -> non_increasing (map dur (ins e l)).
Proof.
  induction l as [|x l IH]; intros H.
  - rewrite ins_nil. simpl. split; [constructor|exact I].
  - destruct H as [Hx Hl]. rewrite ins_cons.
    destruct (Qle_bool (dur x) (dur e)) eqn:C.
    + apply Qle_bool_iff in C. simpl. split; [|split; assumption].
      constructor; [assumption|].
      eapply Forall_impl; [|exact Hx]. simpl. intros d Hd.
      now apply Qle_trans with (dur x).
    + simpl. split; [|now apply IH].
      apply Forall_forall. intros d Hd. apply in_map_iff in Hd.
      destruct Hd as (y & <- & Hy).
      apply (Permutation_in _ (ins_Permutation e l)) in Hy.
      destruct Hy as [<-|Hy].
      * apply Qlt_le_weak, Qlt_bool_iff. unfold Qlt_bool. now rewrite C.
      * rewrite Forall_forall in Hx. apply Hx. now apply in_map.
Qed.

Lemma fold_ins_sorted (l : list E) :
  Permutation (fold_right ins [] l) l /\
  non_increasing (map dur (fold_right ins [] l)).
Proof.
  induction l as [|e l [IHp IHs]]; simpl.
  - split; [constructor|exact I].
  - split.
    + eapply Permutation_trans; [apply ins_Permutation|]. now apply perm_skip.
    + now apply ins_non_increasing.
Qed.

End DescendingInsertion.

(** X16: the idle table that is shown holds the events of the
    window-filtered table, each as often, from the longest duration to the
    shortest; the sorted low-speed table does the same for all low-speed
    events. *)
Theorem tables_sorted_by_duration `{dt : Dtypes} `{ti : Ties} (mc_min_speed_req idle_time : Q)
    (date_range : list Z) (time_range : Z * Z) (df : DataFrame) :
  (forall table,
      filtered_idle_events date_range time_range idle_time df = Value table ->
      exists shown,
        shown_idle_events date_range time_range idle_time df = Value shown /\
        Permutation shown table /\
        non_increasing (map ie_duration shown)) /\
  (exists evs sorted,
      low_speed_events_all mc_min_speed_req df = Value evs /\
      low_speed_events_sorted mc_min_speed_req df = Value sorted /\
      Permutation sorted evs /\
      non_increasing (map ls_duration sorted)).
Proof.
  split.
  - intros table Ht. unfold shown_idle_events. rewrite Ht. simpl.
    destruct (fold_ins_sorted ie_duration insert_desc
                (fun e => eq_refl) (fun e x l => eq_refl) table) as [Hp Hs].
    destruct table as [|ev table].
    + exists []. repeat split. constructor.
    + eexists. split; [reflexivity|]. split; assumption.
  - destruct (low_speed_events_runs mc_min_speed_req df) as (evs & E & _).
    destruct (fold_ins_sorted ls_duration insert_desc_low_speed
                (fun e => eq_refl) (fun e x l => eq_refl) evs) as [Hp Hs].
    exists evs. eexists. split; [assumption|].
    unfold low_speed_events_sorted. rewrite E. simpl.
    split; [reflexivity|]. split; assumption.
Qed.

(** X17: on a frame with an idle sample, raising the idle threshold never
    adds a qualifying idle event: the events that qualify under the higher
    threshold qualify under the lower one, and the count does not grow. *)
Theorem idle_threshold_monotone (idle_time1 idle_time2 : Q) (df : DataFrame) :
  (idle_time1 <= idle_time2)%Q ->
  filter idle df <> [] ->
  exists quals1 quals2,
    long_idles idle_time1 df = Value quals1 /\
    long_idles idle_time2 df = Value quals2 /\
    (forall e, In e quals2 -> In e quals1) /\
    (length quals2 <= length quals1)%nat.
Proof.
  intros Hle Hidle. destruct (idle_events_some df Hidle) as (ev0 & evs0 & E & _).
  rewrite (long_idles_some idle_time1 df _ E) by discriminate.
  rewrite (long_idles_some idle_time2 df _ E) by discriminate.
  generalize (ev0 :: evs0). clear E. intros evs.
  do 2 eexists. split; [reflexivity|]. split; [reflexivity|]. split.
  - intros e He. apply filter_In in He. destruct He as [Hin Hq].
    apply filter_In. split; [assumption|].
    apply Qle_bool_iff in Hq. apply Qle_bool_iff.
    now apply Qle_trans with idle_time2.
  - induction evs as [|ev evs IH]; [apply le_n|].
    simpl. destruct (Qle_bool idle_time2 (ie_duration ev)) eqn:E2.
    + assert (E1 : Qle_bool idle_time1 (ie_duration ev) = true).
      { apply Qle_bool_iff in E2. apply Qle_bool_iff.
        now apply Qle_trans with idle_time2. }
      rewrite E1. simpl. lia.
    + destruct (Qle_bool idle_time1 (ie_duration ev)); simpl; lia.
Qed.

Lemma idle_threshold_monotone_witness :
  (3 <= 10)%Q /\
  filter idle across_the_hour <> [] /\
  exists quals1 quals2,
    long_idles 3 across_the_hour = Value quals1 /\
    long_idles 10 across_the_hour = Value quals2 /\
    (forall e, In e quals2 -> In e quals1) /\
    (length quals2 <= length quals1)%nat.
Proof.
  assert (H : (3 <= 10)%Q) by discriminate.
  assert (Hi : filter idle across_the_hour <> []) by discriminate.
  split; [exact H|]. split; [exact Hi|].
  exact (idle_threshold_monotone 3 10 across_the_hour H Hi).
Defined.

Lemma uptime_percent_nonneg_witness :
  chronological ten_minutes /\
  exists tm u,
    total_minutes ten_minutes = Value tm /\ (0 <= tm)%Q /\
    uptime_percent ten_minutes = Value u /\ (0 <= u)%Q.
Proof.
  split; [exact ten_minutes_chronological|].
  exact (uptime_percent_nonneg ten_minutes ten_minutes_chronological).
Defined.

Lemma filtered_idle_events_value `{dt : Dtypes} (date_range : list Z)
    (time_range : Z * Z) (idle_time : Q) (df : DataFrame)
    (table : list IdleEvent) :
  filtered_idle_events date_range time_range idle_time df = Value table ->
  exists quals lo hi,
    display_idle_events idle_time df = Value quals /\
    table = filter (in_window lo hi) quals.
Proof.
  unfold filtered_idle_events. intros H.
  destruct (display_idle_events idle_time df) as [quals| | |]; try discriminate.
  simpl in H.
  destruct (start_datetime date_range time_range) as [lo| | |]; try discriminate.
  destruct (end_datetime date_range time_range) as [hi| | |]; try discriminate.
  simpl in H. exists quals, lo, hi. split; [reflexivity|].
  destruct quals as [|q quals]; [now inversion H|].
  destruct tz_aware; [discriminate|now inversion H].
Qed.

(** X18: every event of the shown idle table is a qualifying idle event, so
    the table never has more rows than the idle-events KPI counts. *)
Theorem idle_table_within_kpi `{dt : Dtypes} `{ti : Ties}
    (mc_min_speed_req idle_time : Q)
    (date_range : list Z) (time_range : Z * Z) (df : DataFrame)
    (shown : list IdleEvent) :
  shown_idle_events date_range time_range idle_time df = Value shown ->
  exists quals,
    long_idles idle_time df = Value quals /\
    (forall e, In e shown -> In e quals) /\
    (length shown <= length quals)%nat /\
    kpi_idle_events (run_script mc_min_speed_req idle_time date_range time_range df)
    = Value (length quals).
Proof.
  intros Hs.
  assert (Hsub : exists table quals lo hi,
             Permutation shown table /\
             display_idle_events idle_time df = Value quals /\
             table = filter (in_window lo hi) quals).
  { unfold shown_idle_events in Hs.
    destruct (filtered_idle_events date_range time_range idle_time df)
      as [table| | |] eqn:Et; try discriminate.
    destruct (filtered_idle_events_value _ _ _ _ _ Et)
      as (quals & lo & hi & Hq & Htab).
    exists table, quals, lo, hi. split; [|split; assumption].
    simpl in Hs. destruct table as [|x table]; inversion Hs; subst shown.
    - constructor.
    - apply (fold_ins_sorted ie_duration insert_desc
               (fun e => eq_refl) (fun e y l => eq_refl) (x :: table)). }
  destruct Hsub as (table & quals & lo & hi & Hp & Hq & ->).
  rewrite long_idles_display in Hq.
  exists quals. split; [assumption|]. split; [|split].
  - intros e He. apply (Permutation_in _ Hp) in He.
    apply filter_In in He. tauto.
  - rewrite (Permutation_length Hp). apply filter_length_le.
  - unfold run_script, kpi_idle_events. rewrite Hq. reflexivity.
Qed.

Lemma idle_table_within_kpi_witness :
  exists shown quals,
    shown_idle_events (dt := naive_floats) [0; 0] (0, 1) 3 across_the_hour
    = Value shown /\
    long_idles 3 across_the_hour = Value quals /\
    (length shown <= length quals)%nat.
Proof.
  eexists.
  destruct (idle_table_within_kpi (dt := naive_floats) (ti := ties_to_even)
              10 3 [0; 0] (0, 1) across_the_hour _ eq_refl)
    as (quals & Hl & _ & Hlen & _).
  exists quals. split; [reflexivity|]. split; assumption.
Defined.

(** ** A single-day window *)

Lemma window_instant_inside (d h0 h1 t : Z) :
  0 <= h0 -> h1 <= 23 ->
  combine_datetime d h0 0 0 <= t -> t <= combine_datetime d h1 59 59 ->
  dt_date t = d /\ h0 <= dt_hour t <= h1.
Proof.
  unfold combine_datetime, dt_date, dt_hour, ns_per_day, ns_per_hour, ns_per_second.
  intros H0 H1 Hlo Hhi.
  assert (Ed : t / (86400 * 1000000000) = d).
  { symmetry. apply (Z.div_unique t _ d (t - 86400 * 1000000000 * d)); lia. }
  assert (Em : t mod (86400 * 1000000000) = t - 86400 * 1000000000 * d).
  { symmetry. apply (Z.mod_unique t _ d (t - 86400 * 1000000000 * d)); lia. }
  split; [assumption|]. rewrite Em. split.
  - apply Z.div_le_lower_bound; lia.
  - assert (H : (t - 86400 * 1000000000 * d) / (3600 * 1000000000) < h1 + 1);
      [|lia].
    apply Z.div_lt_upper_bound; lia.
Qed.

(** X19: for a window of one date and hours within 0..23, on a frame in
    time order that has an idle sample and whose timestamps carry no time
    zone, every event of the window-filtered idle table starts and ends on
    the chosen date, at an hour of day within the chosen hours. *)
Theorem single_day_events_inside `{dt : Dtypes} (d h0 h1 : Z) (idle_time : Q)
    (df : DataFrame) :
  0 <= h0 -> h1 <= 23 -> chronological df ->
  tz_aware = false -> filter idle df <> [] ->
  exists table,
    filtered_idle_events [d] (h0, h1) idle_time df = Value table /\
    Forall (fun e => (dt_date (ie_start e) = d /\ h0 <= dt_hour (ie_start e) <= h1) /\
                     (dt_date (ie_end e) = d /\ h0 <= dt_hour (ie_end e) <= h1))
           table.
Proof.
  intros H0 H1 Hdf Htz Hidle.
  destruct (idle_events_runs df) as (evs & E & HR).
  assert (Hord : Forall (fun ev => ie_start ev <= ie_end ev) evs).
  { apply idle_spans_ordered. rewrite (idle_instants_runs _ _ HR).
    now apply true_runs_chronological. }
  assert (Hne : evs <> []).
  { destruct (idle_events_some df Hidle) as (ev0 & evs0 & E0 & _).
    rewrite E in E0. inversion E0. discriminate. }
  assert (Hq : display_idle_events idle_time df
               = Value (filter (fun e => Qle_bool idle_time (ie_duration e)) evs)).
  { rewrite long_idles_display. now apply long_idles_some. }
  exists (filter (in_window (combine_datetime d h0 0 0) (combine_datetime d h1 59 59))
                 (filter (fun e => Qle_bool idle_time (ie_duration e)) evs)).
  split.
  - apply (filtered_idle_events_eq [d] (h0, h1) idle_time df _ _ _ Htz Hq);
      reflexivity.
  - apply Forall_forall. intros e He.
    apply filter_In in He. destruct He as [He Hw].
    apply filter_In in He. destruct He as [He _].
    apply in_window_iff in Hw. cbn [fst snd] in Hw. destruct Hw as [Hlo Hhi].
    rewrite Forall_forall in Hord. specialize (Hord e He).
    split; apply window_instant_inside; try assumption; lia.
Qed.

Lemma single_day_events_inside_witness :
  0 <= 0 /\ 1 <= 23 /\
  tz_aware (Dtypes := naive_floats) = false /\
  filter idle across_the_hour <> [] /\
  exists table,
    filtered_idle_events (dt := naive_floats) [0] (0, 1) 3 across_the_hour
    = Value table /\
    Forall (fun e => (dt_date (ie_start e) = 0 /\ 0 <= dt_hour (ie_start e) <= 1) /\
                     (dt_date (ie_end e) = 0 /\ 0 <= dt_hour (ie_end e) <= 1))
           table.
Proof.
  assert (H0 : 0 <= 0) by discriminate.
  assert (H1 : 1 <= 23) by discriminate.
  assert (Hc : chronological across_the_hour).
  { unfold chronological. simpl.
    repeat match goal with
           | |- _ /\ _ => split
           | |- Forall _ _ => constructor
           | |- True => exact I
           | |- _ <= _ => discriminate
           end. }
  assert (Htz : tz_aware (Dtypes := naive_floats) = false) by reflexivity.
  assert (Hi : filter idle across_the_hour <> []) by discriminate.
  split; [exact H0|]. split; [exact H1|]. split; [exact Htz|]. split; [exact Hi|].
  exact (single_day_events_inside (dt := naive_floats) 0 0 1 3 across_the_hour
           H0 H1 Hc Htz Hi).
Defined.

(** ** Group numbers of the idle events *)

Lemma true_keys_steps {A : Type} (tag : A -> bool) (gs : list (list A)) (n : Z) :
  alternating tag gs ->
  steps_by_two (map fst (filter (tagged_block tag) (number_runs n gs))) /\
  match map fst (filter (tagged_block tag) (number_runs n gs)), gs with
  | k :: _, g :: _ => k = n + (if run_tag tag g then 0 else 1)
  | _, _ => True
  end.
Proof.
  revert n. induction gs as [|g gs IH]; intros n Halt; [split; exact I|].
  cbn [number_runs filter]. change (tagged_block tag (n, g)) with (run_tag tag g).
  destruct gs as [|g2 gs].
  - cbn [number_runs filter map]. destruct (run_tag tag g) eqn:Eg; simpl.
    + rewrite ?Eg. split; [exact I|lia].
    + split; exact I.
  - destruct Halt as [Hne Halt]. specialize (IH (n + 1) Halt).
    destruct IH as [IHs IHh].
    destruct (run_tag tag g) eqn:Eg.
    + cbn [map fst]. split; [|lia].
      destruct (map fst (filter (tagged_block tag) (number_runs (n + 1) (g2 :: gs))))
        as [|k2 ks] eqn:Ek; [exact I|].
      split; [|exact IHs].
      destruct (run_tag tag g2); [congruence|lia].
    + split; [exact IHs|].
      destruct (map fst (filter (tagged_block tag) (number_runs (n + 1) (g2 :: gs))))
        as [|k2 ks] eqn:Ek; [exact I|].
      destruct (run_tag tag g2); [lia|congruence].
Qed.

Lemma idle_event_groups (bs : list (Z * list Row)) (evs : list IdleEvent) :
  Forall2 idle_event_of_block bs evs -> map ie_idle_group evs = map fst bs.
Proof.
  induction 1 as [|b ev bs evs (Hk & _) _ IH]; [reflexivity|].
  simpl. now rewrite Hk, IH.
Qed.

(** X20: the group numbers in the idle-events table go up in steps of
    exactly two, starting at 1 when the first sample of the frame is idle
    and at 2 when it is not. *)
Theorem idle_group_numbers (df : DataFrame) :
  exists evs,
    idle_events df = Value evs /\
    steps_by_two (map ie_idle_group evs) /\
    (forall first rest ev evs',
        df = first :: rest -> evs = ev :: evs' ->
        ie_idle_group ev = if idle first then 1 else 2).
Proof.
  destruct (idle_events_blocks df) as (evs & E & HR).
  exists evs. split; [assumption|].
  pose proof (idle_event_groups _ _ HR) as Hk. unfold true_blocks in Hk.
  destruct (true_keys_steps idle (runs idle df) 1 (runs_alternating idle df))
    as [Hs Hh].
  rewrite <- Hk in Hs, Hh. split; [assumption|].
  intros first rest ev evs' -> ->.
  destruct (runs_cons_head idle first rest) as (g & gs & Er).
  rewrite Er in Hh. simpl in Hh. rewrite Hh.
  destruct (idle first); reflexivity.
Qed.
